(** * merged-epg-filtered: the merge / filter / fallback pipeline

    A shallow embedding of [scripts/merge_and_filter_epg.py] and the
    properties of its timestamp parser, window test, fetch retry loop, merge
    loop, fallback guard and writer.

    Conventions of the embedding.
    - A Python [str] is a [string]; its characters are code points below 256,
      on which the regular-expression classes [\d] and [\s] and [str.strip]
      are the sets given by [is_digit] and [is_space].
    - An aware UTC [datetime] is the number of microseconds elapsed since
      0001-01-01T00:00:00Z, the origin of Python's proleptic ordinal.
    - A raised exception is the [Raise] constructor of [result]; the effects
      of the script (requests, sleeps, log lines, writes to the filesystem)
      are returned as explicit traces. *)

From Stdlib Require Import ZArith List String Ascii Bool Lia.
From stdpp Require Import base option list gmap strings.

Local Open Scope Z_scope.
#[local] Set Warnings "-clear-no-such-hyp".

(** ** Exceptions and fallible computations *)

Inductive exn : Type :=
| ValueError            (* strptime, timezone(): a value out of range *)
| OverflowError         (* datetime arithmetic leaving year 1..9999 *)
| TypeError             (* raise None *)
| RequestError (msg : string).  (* anything raised inside one fetch attempt *)

Inductive result (A : Type) : Type :=
| Ok (a : A)
| Raise (e : exn).
Arguments Ok {A} a.
Arguments Raise {A} e.

Definition rbind {A B : Type} (r : result A) (k : A -> result B) : result B :=
  match r with
  | Ok a => k a
  | Raise e => Raise e
  end.

Notation "'let*' x ':=' r 'in' k" := (rbind r (fun x => k))
  (at level 10, x name, r at level 100, k at level 200).

(** ** Characters and strings *)

Definition code (c : ascii) : Z := Z.of_N (N_of_ascii c).

(** [\d] on code points below 256. *)
Definition is_digit (c : ascii) : bool :=
  (48 <=? code c) && (code c <=? 57).

(** [\s] and [str.isspace] on code points below 256: TAB..CR, FS..US,
    space, NEL and the no-break space. *)
Definition is_space (c : ascii) : bool :=
  let n := code c in
  ((9 <=? n) && (n <=? 13)) || ((28 <=? n) && (n <=? 32))
  || (n =? 133) || (n =? 160).

Definition digit_value (c : ascii) : Z := code c - 48.

(** [int(s)] for a string of decimal digits. *)
Fixpoint int_acc (acc : Z) (s : string) : Z :=
  match s with
  | EmptyString => acc
  | String c r => int_acc (acc * 10 + digit_value c) r
  end.

Definition int (s : string) : Z := int_acc 0 s.

(** The slice [s[i:j]]. *)
Definition slice (i j : nat) (s : string) : string :=
  String.substring i (j - i) s.

(** [\d{n}] at the head of [s]: the digits and what follows them. *)
Fixpoint take_digits (n : nat) (s : string) : option (string * string) :=
  match n with
  | O => Some (EmptyString, s)
  | S n' =>
      match s with
      | EmptyString => None
      | String c r =>
          if is_digit c then
            match take_digits n' r with
            | Some (d, rest) => Some (String c d, rest)
            | None => None
            end
          else None
      end
  end.

(** [\s*] at the head of [s]. What follows it in the pattern starts with a
    character that is not white space, so only the longest run can match. *)
Fixpoint skip_spaces (s : string) : string :=
  match s with
  | EmptyString => s
  | String c r => if is_space c then skip_spaces r else s
  end.

(** [([+\-]\d{4}|Z)] at the head of [s]. *)
Definition match_tz (s : string) : option string :=
  match s with
  | EmptyString => None
  | String c r =>
      if Ascii.eqb c "Z" then Some (String c EmptyString)
      else if Ascii.eqb c "+" || Ascii.eqb c "-" then
        match take_digits 4 r with
        | Some (d, _) => Some (String c d)
        | None => None
        end
      else None
  end.

(** [re.match(r"(\d{14})(?:\s*([+\-]\d{4}|Z))?", ts)]: groups 1 and 2.
    [re.match] anchors at the start only. *)
Definition re_match (ts : string) : option (string * option string) :=
  match take_digits 14 ts with
  | None => None
  | Some (g1, rest) => Some (g1, match_tz (skip_spaces rest))
  end.

(** [str.strip()]. *)
Fixpoint rstrip (s : string) : string :=
  match s with
  | EmptyString => EmptyString
  | String c r =>
      match rstrip r with
      | EmptyString => if is_space c then EmptyString else String c EmptyString
      | r' => String c r'
      end
  end.

Definition strip (s : string) : string := rstrip (skip_spaces s).

(** ** The calendar of [datetime] *)

Definition MINYEAR : Z := 1.
Definition MAXYEAR : Z := 9999.

Definition is_leap (y : Z) : bool :=
  (y mod 4 =? 0) && (negb (y mod 100 =? 0) || (y mod 400 =? 0)).

Definition days_in_month (y m : Z) : Z :=
  match m with
  | 1 | 3 | 5 | 7 | 8 | 10 | 12 => 31
  | 4 | 6 | 9 | 11 => 30
  | 2 => if is_leap y then 29 else 28
  | _ => 0
  end.

Definition days_before_year (y : Z) : Z :=
  let p := y - 1 in p * 365 + p / 4 - p / 100 + p / 400.

Definition days_before_month (y m : Z) : Z :=
  fold_right Z.add 0
    (map (days_in_month y) (map Z.of_nat (seq 1 (Z.to_nat (m - 1))))).

(** [date.toordinal]: 0001-01-01 is day 1. *)
Definition ymd2ord (y m d : Z) : Z :=
  days_before_year y + days_before_month y m + d.

Definition US_PER_SECOND : Z := 1000000.
Definition US_PER_DAY : Z := 86400 * US_PER_SECOND.
Definition MAXORDINAL : Z := 3652059.

Definition datetime : Type := Z.

(** The instant [y-m-d T h:mi:s Z]. *)
Definition utc (y m d h mi s : Z) : datetime :=
  ((ymd2ord y m d - 1) * 86400 + h * 3600 + mi * 60 + s) * US_PER_SECOND.

(** [timedelta(days=n)], [timedelta(hours=h, minutes=m)], in microseconds. *)
Definition timedelta_days (n : Z) : Z := n * US_PER_DAY.
Definition timedelta_hm (h m : Z) : Z := (h * 3600 + m * 60) * US_PER_SECOND.

(** [datetime + timedelta]: the result must stay within years 1..9999. *)
Definition dt_add (t delta : Z) : result datetime :=
  let r := t + delta in
  if (0 <=? r) && (r <? MAXORDINAL * US_PER_DAY) then Ok r
  else Raise OverflowError.

(** [datetime.strptime(g, "%Y%m%d%H%M%S")] on fourteen digits [g]. With
    fourteen characters each of the five two-digit directives has to take
    two digits (otherwise data remains unconverted), then the fields must
    form a date and a time of day; every failure is a [ValueError]. The
    result is naive: the instant it would denote at offset zero. *)
Definition strptime (g : string) : result datetime :=
  let y := int (slice 0 4 g) in
  let m := int (slice 4 6 g) in
  let d := int (slice 6 8 g) in
  let h := int (slice 8 10 g) in
  let mi := int (slice 10 12 g) in
  let s := int (slice 12 14 g) in
  if (MINYEAR <=? y) && (y <=? MAXYEAR)
     && (1 <=? m) && (m <=? 12)
     && (1 <=? d) && (d <=? days_in_month y m)
     && (h <=? 23) && (mi <=? 59) && (s <=? 59)
  then Ok (utc y m d h mi s)
  else Raise ValueError.

(** [timezone(delta)]: the offset must lie strictly between -24h and 24h. *)
Definition timezone (delta : Z) : result Z :=
  if (- timedelta_hm 24 0 <? delta) && (delta <? timedelta_hm 24 0)
  then Ok delta
  else Raise ValueError.

(** [base.replace(tzinfo=offset).astimezone(timezone.utc)]. *)
Definition astimezone_utc (base offset : Z) : result datetime :=
  dt_add base (- offset).

(** ** parse_xmltv_time *)

Definition parse_xmltv_time (ts : string) : result (option datetime) :=
  if String.eqb ts EmptyString then Ok None
  else
    match re_match ts with
    | None => Ok None
    | Some (g1, tz) =>
        let* base := strptime g1 in
        match tz with
        | Some tz =>
            if negb (String.eqb tz "Z") then
              let sign := if String.eqb (slice 0 1 tz) "+" then 1 else -1 in
              let hours := int (slice 1 3 tz) in
              let mins := int (slice 3 5 tz) in
              let* offset := timezone (sign * timedelta_hm hours mins) in
              let* t := astimezone_utc base offset in
              Ok (Some t)
            else Ok (Some base)
        | None => Ok (Some base)
        end
    end.

(** ** intersects_window *)

Definition intersects_window (start_dt stop_dt : option datetime)
    (win_start win_end : datetime) : bool :=
  match start_dt, stop_dt with
  | None, None => true
  | None, Some stop => win_start <=? stop
  | Some start, None => start <=? win_end
  | Some start, Some stop => (start <=? win_end) && (win_start <=? stop)
  end.

(** ** XMLTV documents *)

(** An lxml element: tag, attributes, text, children and tail. *)
#[warnings="-register-all"]
Inductive element : Type :=
| Element (tag : string) (attrib : list (string * string))
    (text : option string) (children : list element) (tail : option string).

Definition tag (e : element) : string :=
  match e with Element t _ _ _ _ => t end.
Definition attrib (e : element) : list (string * string) :=
  match e with Element _ a _ _ _ => a end.
Definition text (e : element) : option string :=
  match e with Element _ _ x _ _ => x end.
Definition children (e : element) : list element :=
  match e with Element _ _ _ c _ => c end.

(** [e.get(name)]. *)
Fixpoint get_attr (a : list (string * string)) (name : string) : option string :=
  match a with
  | [] => None
  | (k, v) :: r => if String.eqb k name then Some v else get_attr r name
  end.

Definition get (e : element) (name : string) : option string :=
  get_attr (attrib e) name.

(** [x or ""] for [x] a string or [None]. *)
Definition or_empty (x : option string) : string :=
  match x with
  | Some s => s
  | None => EmptyString
  end.

(** [e.findall(t)]: the children of [e] with tag [t], in document order,
    as a list built before the loop over it starts. *)
Definition findall (e : element) (t : string) : list element :=
  List.filter (fun c => String.eqb (tag c) t) (children e).

(** [e.findtext(t)]: the text of the first child with tag [t]; the empty
    string when that child has no text, [None] when there is no such child. *)
Definition findtext (e : element) (t : string) : option string :=
  match findall e t with
  | [] => None
  | c :: _ => Some (or_empty (text c))
  end.

(** ** Configuration *)

Definition BASE_URL : string := "https://epgshare01.online/epgshare01/".

Definition FILES : list string :=
  [ "epg_ripper_BEIN1.xml.gz"; "epg_ripper_BR1.xml.gz"; "epg_ripper_BR2.xml.gz";
    "epg_ripper_CA2.xml.gz"; "epg_ripper_UK1.xml.gz";
    "epg_ripper_DELUXEMUSIC1.xml.gz"; "epg_ripper_DIRECTVSPORTS1.xml.gz";
    "epg_ripper_DISTROTV1.xml.gz"; "epg_ripper_DRAFTKINGS1.xml.gz";
    "epg_ripper_DUMMY_CHANNELS.xml.gz"; "epg_ripper_ES1.xml.gz";
    "epg_ripper_FANDUEL1.xml.gz"; "epg_ripper_FI1.xml.gz";
    "epg_ripper_PEACOCK1.xml.gz"; "epg_ripper_PLEX1.xml.gz";
    "epg_ripper_POWERNATION1.xml.gz"; "epg_ripper_RAKUTEN1.xml.gz";
    "epg_ripper_RALLY_TV1.xml.gz"; "epg_ripper_SPORTKLUB1.xml.gz";
    "epg_ripper_SSPORTPLUS1.xml.gz"; "epg_ripper_TBNPLUS1.xml.gz";
    "epg_ripper_THESPORTPLUS1.xml.gz"; "epg_ripper_US2.xml.gz";
    "epg_ripper_US_LOCALS1.xml.gz"; "epg_ripper_US_SPORTS1.xml.gz";
    "locomotiontv.xml.gz" ]%string.

Definition URLS : list string := map (String.append BASE_URL) FILES.

Definition KEEP_PAST_DAYS : Z := 2.
Definition KEEP_FUTURE_DAYS : Z := 7.

Definition OUTPUT_NAME : string := "merged_epg.xml.gz".
Definition PREVIOUS_DIST : string := "dist/epg.xml.gz".

(** ** fetch_xml *)

(** What a run does to the outside world while fetching. *)
Inductive event : Type :=
| EvGet (url : string)                (* requests.get(url, ...) *)
| EvSleep (seconds : Z)               (* time.sleep(seconds) *)
| EvLog (url : string) (e : exn).     (* the "Failed to fetch" line *)

Definition is_get (ev : event) : bool :=
  match ev with
  | EvGet _ => true
  | _ => false
  end.

(** The network: what the body of the [try] in [fetch_xml] (request, status
    check, decompression, XML parse) produces for a URL at a given attempt:
    the root of the parsed document, or the exception it raises. *)
Definition network : Type := string -> nat -> result element.

(** The loop [for attempt in range(attempt, attempt + todo)] followed by
    [raise last]; when [last] is still [None], [raise] itself fails with a
    [TypeError]. *)
Fixpoint fetch_loop (net : network) (url : string) (attempt todo : nat)
    (last : option exn) : list event * result element :=
  match todo with
  | O => ([], Raise (match last with Some e => e | None => TypeError end))
  | S todo' =>
      match net url attempt with
      | Ok doc => ([EvGet url], Ok doc)
      | Raise e =>
          let '(evs, r) := fetch_loop net url (S attempt) todo' (Some e) in
          (EvGet url :: EvSleep (2 * Z.of_nat attempt) :: evs, r)
      end
  end.

Definition fetch_xml (net : network) (url : string) (retries : nat)
    : list event * result element :=
  fetch_loop net url 1 retries None.

(** ** The merge loop of main *)

(** A programme's dedup key: [(ch_id, start_s, stop_s, title_text)]. *)
Definition key : Type := string * string * string * string.

(** The variables the loop updates. [tv_root] holds the children appended
    to the [tv] element so far, in order. *)
Record state : Type := State {
  tv_root : list element;
  channel_ids_seen : gset string;
  programme_keys_seen : gset key;
  sources_ok : nat
}.

Definition initial_state : state :=
  {| tv_root := []; channel_ids_seen := ∅; programme_keys_seen := ∅;
     sources_ok := 0 |}.

Definition channel_id (ch : element) : string := or_empty (get ch "id").

(** The body of [for ch in root.findall("channel")]. *)
Definition add_channel (st : state) (ch : element) : state :=
  let cid := channel_id ch in
  if negb (String.eqb cid EmptyString)
     && negb (bool_decide (cid ∈ channel_ids_seen st))
  then {| tv_root := tv_root st ++ [ch];
          channel_ids_seen := {[cid]} ∪ channel_ids_seen st;
          programme_keys_seen := programme_keys_seen st;
          sources_ok := sources_ok st |}
  else st.

Definition programme_key (pr : element) : key :=
  (or_empty (get pr "channel"), or_empty (get pr "start"),
   or_empty (get pr "stop"), strip (or_empty (findtext pr "title"))).

(** The window test of the programme loop: both attributes are parsed,
    start first, then [intersects_window] is asked. *)
Definition in_window (win_start win_end : datetime) (pr : element) : result bool :=
  let start_s := or_empty (get pr "start") in
  let stop_s := or_empty (get pr "stop") in
  let* start_dt := parse_xmltv_time start_s in
  let* stop_dt := parse_xmltv_time stop_s in
  Ok (intersects_window start_dt stop_dt win_start win_end).

(** The body of [for pr in root.findall("programme")]. *)
Definition add_programme (win_start win_end : datetime) (st : state)
    (pr : element) : result state :=
  let* keep := in_window win_start win_end pr in
  if negb keep then Ok st
  else
    let key := programme_key pr in
    if bool_decide (key ∈ programme_keys_seen st) then Ok st
    else Ok {| tv_root := tv_root st ++ [pr];
               channel_ids_seen := channel_ids_seen st;
               programme_keys_seen := {[key]} ∪ programme_keys_seen st;
               sources_ok := sources_ok st |}.

Fixpoint add_programmes (win_start win_end : datetime) (st : state)
    (prs : list element) : result state :=
  match prs with
  | [] => Ok st
  | pr :: rest =>
      let* st' := add_programme win_start win_end st pr in
      add_programmes win_start win_end st' rest
  end.

(** What the loop body does with a fetched document: count it, then its
    channels, then its programmes. *)
Definition merge_source (win_start win_end : datetime) (st : state)
    (root : element) : result state :=
  let st0 := {| tv_root := tv_root st;
                channel_ids_seen := channel_ids_seen st;
                programme_keys_seen := programme_keys_seen st;
                sources_ok := S (sources_ok st) |} in
  let st1 := fold_left add_channel (findall root "channel") st0 in
  add_programmes win_start win_end st1 (findall root "programme").

(** [for url in URLS: ...]. A failed fetch is logged and skipped; an
    exception of the programme loop is not caught and ends the loop. *)
Fixpoint main_loop (net : network) (win_start win_end : datetime)
    (urls : list string) (st : state) : list event * result state :=
  match urls with
  | [] => ([], Ok st)
  | url :: rest =>
      let '(evs, fetched) := fetch_xml net url 3 in
      match fetched with
      | Raise e =>
          let '(evs', r) := main_loop net win_start win_end rest st in
          (evs ++ EvLog url e :: evs', r)
      | Ok doc =>
          match merge_source win_start win_end st doc with
          | Raise e => (evs, Raise e)
          | Ok st' =>
              let '(evs', r) := main_loop net win_start win_end rest st' in
              (evs ++ evs', r)
          end
      end
  end.

(** ** The filesystem, the fallback and the writer *)

Definition bytes : Type := list Byte.byte.

(** Paths to file contents. *)
Abbreviation filesystem := (gmap string bytes).

(** How a run ends: [main] returns, [sys.exit(code)], or an exception
    nobody catches. *)
Inductive termination : Type :=
| Returned
| SystemExit (code : Z)
| Uncaught (e : exn).

Definition exit_status (t : termination) : Z :=
  match t with
  | Returned => 0
  | SystemExit c => c
  | Uncaught _ => 1
  end.

(** Opening [path] with mode "wb" creates or truncates it; the data is on
    the path when the file is closed. These are the two states of the
    filesystem an observer can rely on seeing. *)
Definition write_file (fs : filesystem) (path : string) (data : bytes)
    : list filesystem :=
  [ <[path := []]> fs; <[path := data]> fs ].

(** [fallback_to_previous()]: [os.path.exists], [shutil.copyfile],
    [sys.exit]. *)
Definition fallback_to_previous (fs : filesystem) : list filesystem * termination :=
  match fs !! PREVIOUS_DIST with
  | Some previous => (write_file fs OUTPUT_NAME previous, SystemExit 0)
  | None => ([], SystemExit 1)
  end.

(** The guard on line 162. *)
Definition total_failure (st : state) : bool :=
  (sources_ok st =? 0)%nat
  || ((size (channel_ids_seen st) =? 0)%nat
      && (size (programme_keys_seen st) =? 0)%nat).

(** The gzip magic number, the one [fetch_xml] tests for. *)
Definition GZIP_MAGIC : bytes := [Byte.x1f; Byte.x8b].

(** A run: what it did while fetching, the successive states of the
    filesystem it produced, and how it ended. *)
Record run : Type := Run {
  events : list event;
  fs_trace : list filesystem;
  ending : termination
}.

Definition final_fs (fs : filesystem) (r : run) : filesystem :=
  List.last (fs_trace r) fs.

Section Main.

(** lxml's serializer applied to a [tv] element with the given children
    ([encoding="utf-8"], [xml_declaration=True], [pretty_print=False]). *)
Variable serialize : list element -> bytes.

(** What [GzipFile] writes after the magic number for a payload: the rest
    of the header (it holds [mtime], the clock at that moment), the
    deflate stream and the trailer. *)
Variable gzip_rest : Z -> bytes -> bytes.

Definition gzip_member (mtime : Z) (payload : bytes) : bytes :=
  GZIP_MAGIC ++ gzip_rest mtime payload.

Definition main_on (urls : list string) (now : datetime) (net : network)
    (mtime : Z) (fs : filesystem) : run :=
  match dt_add now (- timedelta_days KEEP_PAST_DAYS) with
  | Raise e => {| events := []; fs_trace := []; ending := Uncaught e |}
  | Ok win_start =>
      match dt_add now (timedelta_days KEEP_FUTURE_DAYS) with
      | Raise e => {| events := []; fs_trace := []; ending := Uncaught e |}
      | Ok win_end =>
          let '(evs, r) := main_loop net win_start win_end urls initial_state in
          match r with
          | Raise e => {| events := evs; fs_trace := []; ending := Uncaught e |}
          | Ok st =>
              if total_failure st then
                let '(tr, t) := fallback_to_previous fs in
                {| events := evs; fs_trace := tr; ending := t |}
              else
                {| events := evs;
                   fs_trace := write_file fs OUTPUT_NAME
                                 (gzip_member mtime (serialize (tv_root st)));
                   ending := Returned |}
          end
      end
  end.

Definition main : datetime -> network -> Z -> filesystem -> run :=
  main_on URLS.

End Main.

(** ** Reading a state and a run *)

Definition is_channel (e : element) : bool := String.eqb (tag e) "channel".
Definition is_programme (e : element) : bool := String.eqb (tag e) "programme".

(** The channel and programme elements of the unified document. *)
Definition out_channels (st : state) : list element :=
  List.filter is_channel (tv_root st).
Definition out_programmes (st : state) : list element :=
  List.filter is_programme (tv_root st).

(** The outcome of the fetch of one source. *)
Definition fetched (net : network) (url : string) : result element :=
  snd (fetch_xml net url 3).

(** The documents of the sources whose fetch succeeded, in source order. *)
Fixpoint fetched_docs (net : network) (urls : list string) : list element :=
  match urls with
  | [] => []
  | url :: rest =>
      match fetched net url with
      | Ok doc => doc :: fetched_docs net rest
      | Raise _ => fetched_docs net rest
      end
  end.

(** All channel records, and all programme records, in the order the
    loop meets them. *)
Definition all_channels (docs : list element) : list element :=
  concat (map (fun root => findall root "channel") docs).
Definition all_programmes (docs : list element) : list element :=
  concat (map (fun root => findall root "programme") docs).

(** The window test as a plain boolean: [true] when the test returns and
    keeps the programme. *)
Definition passes (win_start win_end : datetime) (pr : element) : bool :=
  match in_window win_start win_end pr with
  | Ok b => b
  | Raise _ => false
  end.

Definition has_id (ch : element) : bool :=
  negb (String.eqb (channel_id ch) EmptyString).

(** ** First record wins, stated on the records themselves

    [first_wins P k before l] goes through [l], whose records come after
    those of [before], and keeps a record exactly when it is eligible
    ([P]) and no eligible record before it has the same key ([k]). No set
    of seen keys is involved. *)
Section FirstWins.
Context {A K : Type} `{Countable K}.
Variable P : A -> bool.
Variable k : A -> K.

Definition claimed_earlier (before : list A) (x : A) : bool :=
  existsb (fun q => P q && bool_decide (k q = k x)) before.

Fixpoint first_wins (before l : list A) : list A :=
  match l with
  | [] => []
  | x :: rest =>
      if P x && negb (claimed_earlier before x)
      then x :: first_wins (before ++ [x]) rest
      else first_wins (before ++ [x]) rest
  end.

(** The keys of the eligible records of a list. *)
Definition claimed (l : list A) : gset K :=
  list_to_set (map k (List.filter P l)).
End FirstWins.

(** Merging the fetched documents one after the other. *)
Fixpoint merge_docs (win_start win_end : datetime) (st : state)
    (docs : list element) : result state :=
  match docs with
  | [] => Ok st
  | doc :: rest =>
      let* st' := merge_source win_start win_end st doc in
      merge_docs win_start win_end st' rest
  end.

(** ** Well-formed timestamps, written out

    The strings of the accepted grammar, built from the numbers they
    denote: used to state what the parser makes of them. *)

Definition digit_char (n : Z) : ascii := ascii_of_N (Z.to_N (48 + n)).

Definition two_digits (n : Z) : string :=
  String (digit_char (n / 10)) (String (digit_char (n mod 10)) EmptyString).

Definition four_digits (n : Z) : string :=
  String (digit_char (n / 1000))
    (String (digit_char (n / 100 mod 10)) (two_digits (n mod 100))).

(** [YYYYMMDDhhmmss]. *)
Definition stamp (y m d h mi s : Z) : string :=
  four_digits y +:+ two_digits m +:+ two_digits d
  +:+ two_digits h +:+ two_digits mi +:+ two_digits s.

(** [HHMM]. *)
Definition hhmm (hh mm : Z) : string := two_digits hh +:+ two_digits mm.

Definition valid_civil (y m d h mi s : Z) : Prop :=
  MINYEAR <= y <= MAXYEAR /\ 1 <= m <= 12 /\ 1 <= d <= days_in_month y m
  /\ 0 <= h <= 23 /\ 0 <= mi <= 59 /\ 0 <= s <= 59.

Fixpoint is_blank (w : string) : bool :=
  match w with
  | EmptyString => true
  | String c r => is_space c && is_blank r
  end.

(** The instants a [datetime] can hold. *)
Definition in_range (t : Z) : Prop := 0 <= t < MAXORDINAL * US_PER_DAY.

(** ** Sample records and sources *)

Definition mk_title (t : string) : element :=
  Element "title" [] (Some t) [] None.

Definition mk_programme (attrs : list (string * string)) (title : string) : element :=
  Element "programme" attrs None [mk_title title] None.

Definition mk_channel (cid name : string) : element :=
  Element "channel" [("id", cid)]%string None
    [Element "display-name" [] (Some name) [] None] None.

Definition mk_tv (records : list element) : element :=
  Element "tv" [] None records None.

(** 2024-01-01T12:00:00Z, and the window around it. *)
Definition sample_now : datetime := utc 2024 1 1 12 0 0.
Definition sample_win_start : datetime := utc 2023 12 30 12 0 0.
Definition sample_win_end : datetime := utc 2024 1 8 12 0 0.

Definition news_noon : element :=
  mk_programme [("channel", "X1"); ("start", "20240101120000 +0000");
                ("stop", "20240101130000 +0000")]%string " News ".

Definition old_show : element :=
  mk_programme [("channel", "X1"); ("start", "20230101120000 +0000");
                ("stop", "20230101130000 +0000")]%string "Old".

(** The same broadcast as [news_noon] in another source: same key, other
    content. *)
Definition news_noon_again : element :=
  Element "programme"
    [("start", "20240101120000 +0000"); ("channel", "X1");
     ("stop", "20240101130000 +0000"); ("lang", "en")]%string None
    [Element "desc" [] (Some "repeat") [] None; mk_title "News"] None.

(** The same instants as [news_noon], the offset written without a space. *)
Definition news_noon_respelled : element :=
  mk_programme [("channel", "X1"); ("start", "20240101120000+0000");
                ("stop", "20240101130000+0000")]%string "News".

(** A programme without a channel attribute and without timestamps. *)
Definition orphan : element :=
  Element "programme" [] None [] None.

Definition source_a : element :=
  mk_tv [mk_channel "X1" "One (A)"; old_show; news_noon].

Definition source_b : element :=
  mk_tv [news_noon_again; mk_channel "X1" "One (B)"; mk_channel "" "nameless";
         mk_channel "X2" "Two"; old_show; orphan; news_noon_respelled].

(** Source "a" answers at once, source "b" at the third attempt, every
    other source never. *)
Definition sample_net : network := fun url attempt =>
  if String.eqb url "a" then Ok source_a
  else if String.eqb url "b" then
    (if (attempt <? 3)%nat then Raise (RequestError "timeout") else Ok source_b)
  else Raise (RequestError (match attempt with
                            | 1%nat => "first attempt timed out"
                            | 2%nat => "second attempt refused"
                            | _ => "third attempt: HTTP 503"
                            end)).

Definition sample_urls : list string := ["a"; "down"; "b"]%string.

Definition state_of (r : result state) : state :=
  match r with
  | Ok st => st
  | Raise _ => initial_state
  end.

Definition is_ok {A : Type} (r : result A) : bool :=
  match r with
  | Ok _ => true
  | Raise _ => false
  end.

Definition sample_state : state :=
  state_of (snd (main_loop sample_net sample_win_start sample_win_end
                   sample_urls initial_state)).

(** The sample sources with their channel records removed. *)
Definition without_channels (root : element) : element :=
  mk_tv (findall root "programme").

Definition sample_net_no_channels : network := fun url attempt =>
  match sample_net url attempt with
  | Ok doc => Ok (without_channels doc)
  | Raise e => Raise e
  end.

Definition sample_state_no_channels : state :=
  state_of (snd (main_loop sample_net_no_channels sample_win_start
                   sample_win_end sample_urls initial_state)).

(** ** The writer and determinism, read on runs *)

(** An atomic writer: in every state of the filesystem the run produces,
    the output path holds what it held before the run or what it holds
    when the run has ended. *)
Definition output_never_partial (fs : filesystem) (r : run) : Prop :=
  forall fs', In fs' (fs_trace r) ->
    fs' !! OUTPUT_NAME = fs !! OUTPUT_NAME
    \/ fs' !! OUTPUT_NAME = final_fs fs r !! OUTPUT_NAME.

(** Two networks whose fetches end the same way for every source. *)
Definition same_fetch_outcomes (net1 net2 : network) (urls : list string) : Prop :=
  forall url, In url urls -> fetched net1 url = fetched net2 url.

(** A serializer and a compressor to run the samples with. *)
Definition sample_serialize (records : list element) : bytes :=
  map (fun _ => Byte.x3c) records.
Definition sample_gzip_rest (mtime : Z) (payload : bytes) : bytes := payload.

Definition sample_previous : bytes := [Byte.x1f; Byte.x8b; Byte.x08].

(** Like [sample_net], but source "b" answers at once. *)
Definition sample_net_quick : network := fun url attempt =>
  if String.eqb url "b" then Ok source_b else sample_net url attempt.

(** ** Further notions to state properties with *)

Fixpoint all_digits (s : string) : bool :=
  match s with
  | EmptyString => true
  | String c r => is_digit c && all_digits r
  end.

(** [ts] starts with [n] digits. *)
Definition has_digit_prefix (n : nat) (ts : string) : Prop :=
  exists g rest, ts = g +:+ rest /\ String.length g = n /\ all_digits g = true.

(** The strings of [[+\-]\d{4}|Z]. *)
Definition is_tz (z : string) : Prop :=
  z = "Z"%string
  \/ exists c d, z = String c d /\ (c = "+"%char \/ c = "-"%char)
                 /\ String.length d = 4%nat /\ all_digits d = true.

(** Requests made, seconds slept and sources logged in a trace. *)
Definition gets (evs : list event) : nat := length (List.filter is_get evs).

Fixpoint slept (evs : list event) : Z :=
  match evs with
  | [] => 0
  | EvSleep n :: r => n + slept r
  | _ :: r => slept r
  end.

Fixpoint logged (evs : list event) : list string :=
  match evs with
  | [] => []
  | EvLog url _ :: r => url :: logged r
  | _ :: r => logged r
  end.

(** The children of the unified document, source after source: what each
    source adds is its new channels, then its new programmes. [bc] and [bp]
    are the channel and programme records of the sources before. *)
Fixpoint unified (win_start win_end : datetime) (bc bp : list element)
    (docs : list element) : list element :=
  match docs with
  | [] => []
  | doc :: rest =>
      first_wins has_id channel_id bc (findall doc "channel")
      ++ first_wins (passes win_start win_end) programme_key bp
           (findall doc "programme")
      ++ unified win_start win_end (bc ++ findall doc "channel")
           (bp ++ findall doc "programme") rest
  end.

(** ** The body of one fetch attempt *)

(** What [requests.get] returns, as far as [fetch_xml] looks at it. *)
Record response : Type := Response {
  status_code : Z;
  content : bytes
}.

(** [r.raise_for_status()]: client and server error statuses raise. *)
Definition raise_for_status (r : response) : result unit :=
  if (400 <=? status_code r) && (status_code r <? 600)
  then Raise (RequestError "HTTPError")
  else Ok tt.

(** [content[:2] == b"\x1f\x8b"]. *)
Definition has_gzip_magic (content : bytes) : bool :=
  match firstn 2 content with
  | [a; b] => Byte.eqb a Byte.x1f && Byte.eqb b Byte.x8b
  | _ => false
  end.

Section FetchBody.

(** [gzip.decompress] and [etree.parse(BytesIO(...))], which return or
    raise. *)
Variable gzip_decompress : bytes -> result bytes.
Variable etree_parse : bytes -> result element.

(** The body of the [try] in [fetch_xml], given what [requests.get]
    returned or raised. *)
Definition fetch_body (got : result response) : result element :=
  let* r := got in
  let* _ := raise_for_status r in
  let* content :=
    (if has_gzip_magic (content r) then gzip_decompress (content r)
     else Ok (content r)) in
  etree_parse content.

(** The network an HTTP transport gives rise to. *)
Definition network_of (http : string -> nat -> result response) : network :=
  fun url attempt => fetch_body (http url attempt).

End FetchBody.



(** * Properties *)

Lemma ok_state_of (r : result state) : is_ok r = true -> r = Ok (state_of r).
Proof. by destruct r. Qed.

(** Closes an equation between closed terms by evaluating both sides. *)
Ltac by_evaluation :=
  match goal with
  | |- ?l = ?r => exact (eq_refl r <: l = r)
  end.

(** ** First record wins: the seen-set loops against [first_wins] *)

Section FirstWinsFacts.
Context {A K : Type} `{Countable K}.
Variable P : A -> bool.
Variable k : A -> K.

Lemma claimed_earlier_spec (before : list A) (x : A) :
  claimed_earlier P k before x = bool_decide (k x ∈ claimed P k before).
Proof.
  unfold claimed_earlier, claimed.
  destruct (existsb _ before) eqn:E.
  - symmetry. apply bool_decide_eq_true_2.
    apply existsb_exists in E as (q & Hq & Hpq).
    apply andb_true_iff in Hpq as [HP Hk].
    apply bool_decide_eq_true_1 in Hk.
    apply elem_of_list_to_set, list_elem_of_In, in_map_iff.
    exists q. split; [done|]. apply filter_In. done.
  - symmetry. apply bool_decide_eq_false_2. intros Hin.
    apply elem_of_list_to_set, list_elem_of_In, in_map_iff in Hin
      as (q & Hk & Hq).
    apply filter_In in Hq as [Hq HP].
    apply not_true_iff_false in E. apply E.
    apply existsb_exists. exists q. split; [done|].
    rewrite HP. simpl. by apply bool_decide_eq_true_2.
Qed.

Lemma claimed_snoc (before : list A) (x : A) :
  claimed P k (before ++ [x]) =
  if P x then {[k x]} ∪ claimed P k before else claimed P k before.
Proof.
  unfold claimed. rewrite List.filter_app. simpl.
  destruct (P x); simpl.
  - rewrite map_app, list_to_set_app_L. simpl. set_solver.
  - by rewrite app_nil_r.
Qed.

Lemma claimed_app (l1 l2 : list A) :
  claimed P k (l1 ++ l2) = claimed P k l1 ∪ claimed P k l2.
Proof.
  unfold claimed. by rewrite List.filter_app, map_app, list_to_set_app_L.
Qed.

Lemma first_wins_app (before l1 l2 : list A) :
  first_wins P k before (l1 ++ l2) =
  first_wins P k before l1 ++ first_wins P k (before ++ l1) l2.
Proof.
  revert before. induction l1 as [|x l1 IH]; intros before; simpl.
  - by rewrite app_nil_r.
  - rewrite IH, <- app_assoc. simpl.
    by destruct (P x && negb (claimed_earlier P k before x)).
Qed.

Lemma first_wins_cons (before : list A) (x : A) (l : list A) :
  first_wins P k before (x :: l) =
  first_wins P k before [x] ++ first_wins P k (before ++ [x]) l.
Proof. apply (first_wins_app before [x] l). Qed.

Lemma first_wins_In (before l : list A) (x : A) :
  In x (first_wins P k before l) -> In x l /\ P x = true.
Proof.
  revert before. induction l as [|y l IH]; intros before; simpl; [tauto|].
  destruct (P y && negb (claimed_earlier P k before y)) eqn:E.
  - intros [->|Hin].
    + apply andb_true_iff in E. tauto.
    + apply IH in Hin. tauto.
  - intros Hin. apply IH in Hin. tauto.
Qed.

Lemma first_wins_key_fresh (before l : list A) (x : A) :
  In x (first_wins P k before l) -> k x ∉ claimed P k before.
Proof.
  revert before. induction l as [|y l IH]; intros before; simpl; [tauto|].
  assert (Hstep : In x (first_wins P k (before ++ [y]) l) ->
                  k x ∉ claimed P k before).
  { intros Hin. apply IH in Hin. rewrite claimed_snoc in Hin.
    destruct (P y); set_solver. }
  destruct (P y && negb (claimed_earlier P k before y)) eqn:E; [|done].
  intros [->|Hin]; [|by apply Hstep].
  apply andb_true_iff in E as [_ E]. apply negb_true_iff in E.
  rewrite claimed_earlier_spec in E. by apply bool_decide_eq_false_1 in E.
Qed.

Lemma first_wins_NoDup (before l : list A) :
  NoDup (map k (first_wins P k before l)).
Proof.
  revert before. induction l as [|y l IH]; intros before; simpl.
  - constructor.
  - destruct (P y && negb (claimed_earlier P k before y)) eqn:E; [|done].
    simpl. constructor; [|done].
    intros Hin. apply list_elem_of_In, in_map_iff in Hin as (q & Hk & Hq).
    apply first_wins_key_fresh in Hq. rewrite claimed_snoc in Hq.
    apply andb_true_iff in E as [E _]. rewrite E in Hq. set_solver.
Qed.

Lemma first_wins_keys (before l : list A) :
  claimed P k before ∪ list_to_set (map k (first_wins P k before l))
  = claimed P k (before ++ l).
Proof.
  revert before. induction l as [|y l IH]; intros before; simpl.
  - rewrite app_nil_r. set_solver.
  - specialize (IH (before ++ [y])). rewrite <- app_assoc in IH. simpl in IH.
    rewrite <- IH, claimed_snoc.
    rewrite claimed_earlier_spec.
    destruct (P y) eqn:E; simpl; [|done].
    destruct (bool_decide (k y ∈ claimed P k before)) eqn:E2; simpl.
    + apply bool_decide_eq_true_1 in E2. set_solver.
    + set_solver.
Qed.
End FirstWinsFacts.

(** ** The loops of main *)

Lemma union_singleton_absorb {K : Type} `{Countable K} (x : K) (X : gset K) :
  x ∈ X -> X = {[x]} ∪ X.
Proof.
  intros Hin. symmetry. apply subseteq_union_1_L. by apply singleton_subseteq_l.
Qed.

Lemma add_channel_spec (st : state) (before : list element) (ch : element) :
  channel_ids_seen st = claimed has_id channel_id before ->
  add_channel st ch =
  {| tv_root := tv_root st ++ first_wins has_id channel_id before [ch];
     channel_ids_seen := claimed has_id channel_id (before ++ [ch]);
     programme_keys_seen := programme_keys_seen st;
     sources_ok := sources_ok st |}.
Proof.
  intros Hseen. unfold add_channel. simpl.
  rewrite claimed_earlier_spec, claimed_snoc, <- Hseen.
  fold (has_id ch).
  destruct (has_id ch); simpl.
  - destruct (bool_decide (channel_id ch ∈ channel_ids_seen st)) eqn:E; simpl.
    + apply bool_decide_eq_true_1 in E.
      destruct st; simpl in *. rewrite app_nil_r. f_equal.
      by apply union_singleton_absorb.
    + done.
  - destruct st; simpl. by rewrite app_nil_r.
Qed.

Lemma add_channels_spec (chs : list element) (st : state) (before : list element) :
  channel_ids_seen st = claimed has_id channel_id before ->
  fold_left add_channel chs st =
  {| tv_root := tv_root st ++ first_wins has_id channel_id before chs;
     channel_ids_seen := claimed has_id channel_id (before ++ chs);
     programme_keys_seen := programme_keys_seen st;
     sources_ok := sources_ok st |}.
Proof.
  revert st before. induction chs as [|ch chs IH]; intros st before Hseen.
  - destruct st; simpl in *. rewrite !app_nil_r. by f_equal.
  - change (fold_left add_channel (ch :: chs) st)
      with (fold_left add_channel chs (add_channel st ch)).
    rewrite (add_channel_spec st before ch Hseen).
    rewrite (IH _ (before ++ [ch])) by done.
    rewrite (first_wins_cons _ _ before ch chs).
    cbn [tv_root programme_keys_seen sources_ok].
    by rewrite <- !app_assoc.
Qed.

Lemma add_programme_spec (ws we : datetime) (st st' : state)
    (before : list element) (pr : element) :
  programme_keys_seen st = claimed (passes ws we) programme_key before ->
  add_programme ws we st pr = Ok st' ->
  st' =
  {| tv_root := tv_root st ++ first_wins (passes ws we) programme_key before [pr];
     channel_ids_seen := channel_ids_seen st;
     programme_keys_seen := claimed (passes ws we) programme_key (before ++ [pr]);
     sources_ok := sources_ok st |}.
Proof.
  intros Hseen. unfold add_programme. simpl.
  rewrite claimed_earlier_spec, claimed_snoc, <- Hseen.
  unfold passes.
  destruct (in_window ws we pr) as [keep|e]; simpl; [|discriminate].
  destruct keep; simpl.
  - destruct (bool_decide (programme_key pr ∈ programme_keys_seen st)) eqn:E;
      simpl; intros Heq; injection Heq as <-.
    + apply bool_decide_eq_true_1 in E.
      destruct st; simpl in *. rewrite app_nil_r. f_equal.
      by apply union_singleton_absorb.
    + done.
  - intros Heq; injection Heq as <-. destruct st; simpl. by rewrite app_nil_r.
Qed.

Lemma add_programmes_spec (ws we : datetime) (prs : list element)
    (st st' : state) (before : list element) :
  programme_keys_seen st = claimed (passes ws we) programme_key before ->
  add_programmes ws we st prs = Ok st' ->
  st' =
  {| tv_root := tv_root st ++ first_wins (passes ws we) programme_key before prs;
     channel_ids_seen := channel_ids_seen st;
     programme_keys_seen := claimed (passes ws we) programme_key (before ++ prs);
     sources_ok := sources_ok st |}.
Proof.
  revert st before. induction prs as [|pr prs IH]; intros st before Hseen.
  - simpl. intros Heq; injection Heq as <-. destruct st; simpl in *. rewrite !app_nil_r. by f_equal.
  - simpl add_programmes.
    destruct (add_programme ws we st pr) as [st1|e] eqn:E1; cbn [rbind];
      [|discriminate].
    intros Hrest.
    pose proof (add_programme_spec ws we st st1 before pr Hseen E1) as ->.
    apply (IH _ (before ++ [pr])) in Hrest; [|done].
    rewrite Hrest, (first_wins_cons _ _ before pr prs).
    cbn [tv_root channel_ids_seen sources_ok].
    by rewrite <- !app_assoc.
Qed.

(** Every window test of a completed programme loop returned. *)
Lemma add_programmes_in_window (ws we : datetime) (prs : list element)
    (st st' : state) (pr : element) :
  add_programmes ws we st prs = Ok st' -> In pr prs ->
  exists b, in_window ws we pr = Ok b.
Proof.
  revert st. induction prs as [|q prs IH]; intros st; simpl; [tauto|].
  destruct (add_programme ws we st q) as [st1|e] eqn:E1; simpl; [|discriminate].
  intros Hrest [->|Hin]; [|by eapply IH].
  unfold add_programme in E1.
  destruct (in_window ws we pr) as [b|e]; [by exists b|discriminate].
Qed.

Lemma merge_source_spec (ws we : datetime) (st st' : state) (root : element)
    (bc bp : list element) :
  channel_ids_seen st = claimed has_id channel_id bc ->
  programme_keys_seen st = claimed (passes ws we) programme_key bp ->
  merge_source ws we st root = Ok st' ->
  st' =
  {| tv_root := tv_root st
                ++ first_wins has_id channel_id bc (findall root "channel")
                ++ first_wins (passes ws we) programme_key bp
                     (findall root "programme");
     channel_ids_seen := claimed has_id channel_id (bc ++ findall root "channel");
     programme_keys_seen :=
       claimed (passes ws we) programme_key (bp ++ findall root "programme");
     sources_ok := S (sources_ok st) |}.
Proof.
  intros Hc Hp. unfold merge_source.
  rewrite (add_channels_spec _ _ bc) by done. simpl.
  intros Hrun. apply (add_programmes_spec _ _ _ _ _ bp) in Hrun; [|done].
  rewrite Hrun. simpl. by rewrite app_assoc.
Qed.

Lemma findall_tag (root : element) (t : string) (e : element) :
  In e (findall root t) -> tag e = t.
Proof.
  unfold findall. intros Hin. apply filter_In in Hin as [_ Heq].
  by apply String.eqb_eq.
Qed.

Lemma filter_all {A : Type} (f : A -> bool) (l : list A) :
  (forall x, In x l -> f x = true) -> List.filter f l = l.
Proof.
  induction l as [|x l IH]; simpl; intros Hall; [done|].
  rewrite (Hall x) by auto. f_equal. apply IH. auto.
Qed.

Lemma filter_none {A : Type} (f : A -> bool) (l : list A) :
  (forall x, In x l -> f x = false) -> List.filter f l = [].
Proof.
  induction l as [|x l IH]; simpl; intros Hall; [done|].
  rewrite (Hall x) by auto. apply IH. auto.
Qed.

Lemma merge_docs_spec (ws we : datetime) (docs : list element)
    (st st' : state) (bc bp : list element) :
  channel_ids_seen st = claimed has_id channel_id bc ->
  programme_keys_seen st = claimed (passes ws we) programme_key bp ->
  merge_docs ws we st docs = Ok st' ->
  out_channels st' =
    out_channels st ++ first_wins has_id channel_id bc (all_channels docs)
  /\ out_programmes st' =
    out_programmes st
    ++ first_wins (passes ws we) programme_key bp (all_programmes docs)
  /\ channel_ids_seen st' = claimed has_id channel_id (bc ++ all_channels docs)
  /\ programme_keys_seen st' =
     claimed (passes ws we) programme_key (bp ++ all_programmes docs)
  /\ sources_ok st' = (sources_ok st + length docs)%nat.
Proof.
  revert st bc bp. induction docs as [|doc docs IH]; intros st bc bp Hc Hp.
  - simpl. intros Heq; injection Heq as <-. unfold all_channels, all_programmes. simpl.
    rewrite !app_nil_r. repeat split; try done; lia.
  - simpl merge_docs.
    destruct (merge_source ws we st doc) as [st1|e] eqn:E1; cbn [rbind];
      [|discriminate].
    intros Hrest.
    pose proof (merge_source_spec ws we st st1 doc bc bp Hc Hp E1) as Hst1.
    apply (IH st1 (bc ++ findall doc "channel") (bp ++ findall doc "programme"))
      in Hrest; [| by rewrite Hst1 | by rewrite Hst1].
    destruct Hrest as (Hoc & Hop & Hsc & Hsp & Hn).
    assert (Hch : forall x, In x (findall doc "channel") ->
                        is_channel x = true /\ is_programme x = false).
    { intros x Hx. apply findall_tag in Hx. unfold is_channel, is_programme.
      by rewrite Hx. }
    assert (Hpr : forall x, In x (findall doc "programme") ->
                        is_channel x = false /\ is_programme x = true).
    { intros x Hx. apply findall_tag in Hx. unfold is_channel, is_programme.
      by rewrite Hx. }
    unfold all_channels, all_programmes in *. simpl concat.
    rewrite !first_wins_app, !app_assoc.
    rewrite Hoc, Hop, Hsc, Hsp, Hn.
    unfold out_channels, out_programmes. rewrite Hst1. simpl.
    rewrite !List.filter_app.
    rewrite (filter_all is_channel (first_wins has_id _ _ _))
      by (intros x Hx; apply first_wins_In in Hx as [Hx _]; by apply Hch in Hx as [? _]).
    rewrite (filter_none is_channel (first_wins (passes ws we) _ _ _))
      by (intros x Hx; apply first_wins_In in Hx as [Hx _]; by apply Hpr in Hx as [? _]).
    rewrite (filter_none is_programme (first_wins has_id _ _ _))
      by (intros x Hx; apply first_wins_In in Hx as [Hx _]; by apply Hch in Hx as [_ ?]).
    rewrite (filter_all is_programme (first_wins (passes ws we) _ _ _))
      by (intros x Hx; apply first_wins_In in Hx as [Hx _]; by apply Hpr in Hx as [_ ?]).
    rewrite !app_nil_r. simpl.
    repeat split; try done; lia.
Qed.

Lemma main_loop_merge_docs (net : network) (ws we : datetime)
    (urls : list string) (st : state) :
  snd (main_loop net ws we urls st) = merge_docs ws we st (fetched_docs net urls).
Proof.
  revert st. induction urls as [|url urls IH]; intros st; simpl; [done|].
  unfold fetched. destruct (fetch_xml net url 3) as [evs [doc|e]]; simpl.
  - destruct (merge_source ws we st doc) as [st1|e]; simpl; [|done].
    specialize (IH st1). by destruct (main_loop net ws we urls st1).
  - specialize (IH st). by destruct (main_loop net ws we urls st).
Qed.

(** ** The timestamp parser *)

Lemma code_digit_char (n : Z) : 0 <= n <= 9 -> code (digit_char n) = 48 + n.
Proof.
  intros Hn. unfold code, digit_char. rewrite N_ascii_embedding by lia. lia.
Qed.

Lemma is_digit_digit_char (n : Z) : 0 <= n <= 9 -> is_digit (digit_char n) = true.
Proof.
  intros Hn. unfold is_digit. rewrite code_digit_char by done.
  apply andb_true_iff. split; apply Z.leb_le; lia.
Qed.

Lemma digit_value_digit_char (n : Z) :
  0 <= n <= 9 -> digit_value (digit_char n) = n.
Proof. intros Hn. unfold digit_value. rewrite code_digit_char by done. lia. Qed.

Lemma int_two_digits (n : Z) : 0 <= n <= 99 -> int (two_digits n) = n.
Proof.
  intros Hn. unfold int, two_digits. cbn [int_acc].
  rewrite !digit_value_digit_char
    by (Z.to_euclidean_division_equations; lia).
  Z.to_euclidean_division_equations; lia.
Qed.

Lemma int_four_digits (n : Z) : 0 <= n <= 9999 -> int (four_digits n) = n.
Proof.
  intros Hn. unfold int, four_digits, two_digits. cbn [int_acc].
  rewrite !digit_value_digit_char
    by (Z.to_euclidean_division_equations; lia).
  Z.to_euclidean_division_equations; lia.
Qed.

Lemma take_digits_stamp (y m d h mi s : Z) (rest : string) :
  valid_civil y m d h mi s ->
  take_digits 14 (stamp y m d h mi s +:+ rest) = Some (stamp y m d h mi s, rest).
Proof.
  unfold valid_civil, MINYEAR, MAXYEAR. intros Hv.
  assert (d <= 31) by (unfold days_in_month in Hv; repeat case_match; lia).
  unfold stamp, four_digits, two_digits.
  cbv [String.append]. cbn [take_digits].
  by rewrite !is_digit_digit_char by (Z.to_euclidean_division_equations; lia).
Qed.

Lemma strptime_stamp (y m d h mi s : Z) :
  valid_civil y m d h mi s ->
  strptime (stamp y m d h mi s) = Ok (utc y m d h mi s).
Proof.
  unfold valid_civil, MINYEAR, MAXYEAR. intros Hv.
  assert (d <= 31) by (unfold days_in_month in Hv; repeat case_match; lia).
  unfold strptime.
  change (slice 0 4 (stamp y m d h mi s)) with (four_digits y).
  change (slice 4 6 (stamp y m d h mi s)) with (two_digits m).
  change (slice 6 8 (stamp y m d h mi s)) with (two_digits d).
  change (slice 8 10 (stamp y m d h mi s)) with (two_digits h).
  change (slice 10 12 (stamp y m d h mi s)) with (two_digits mi).
  change (slice 12 14 (stamp y m d h mi s)) with (two_digits s).
  rewrite int_four_digits by lia. rewrite !int_two_digits by lia.
  unfold MINYEAR, MAXYEAR.
  repeat (rewrite (proj2 (Z.leb_le _ _)) by lia). done.
Qed.

Lemma skip_spaces_blank (w rest : string) :
  is_blank w = true -> skip_spaces (w +:+ rest) = skip_spaces rest.
Proof.
  induction w as [|c w IH]; cbv [String.append]; [done|].
  fold (String.append w rest). cbn [is_blank skip_spaces].
  intros Hb. apply andb_true_iff in Hb as [-> Hw]. by apply IH.
Qed.

Lemma take_digits_hhmm (hh mm : Z) :
  0 <= hh <= 99 -> 0 <= mm <= 99 ->
  take_digits 4 (hhmm hh mm) = Some (hhmm hh mm, EmptyString).
Proof.
  intros Hh Hm. unfold hhmm, two_digits.
  cbv [String.append]. cbn [take_digits].
  by rewrite !is_digit_digit_char by (Z.to_euclidean_division_equations; lia).
Qed.

(** The parser on the strings of the grammar, with the hypotheses under
    which each step of the code returns. *)
Lemma parse_plain (y m d h mi s : Z) :
  valid_civil y m d h mi s ->
  parse_xmltv_time (stamp y m d h mi s) = Ok (Some (utc y m d h mi s)).
Proof.
  intros Hv. unfold parse_xmltv_time, re_match.
  pose proof (take_digits_stamp y m d h mi s EmptyString Hv) as Ht.
  assert (Hnil : forall x, x +:+ EmptyString = x).
  { induction x as [|c x IH]; cbv [String.append]; [done|].
    fold (String.append x EmptyString). by rewrite IH. }
  change (String.eqb (stamp y m d h mi s) EmptyString) with false.
  rewrite Hnil in Ht. rewrite Ht.
  by rewrite strptime_stamp by done.
Qed.

Lemma parse_zulu (y m d h mi s : Z) (w : string) :
  valid_civil y m d h mi s -> is_blank w = true ->
  parse_xmltv_time (stamp y m d h mi s +:+ w +:+ "Z")
  = Ok (Some (utc y m d h mi s)).
Proof.
  intros Hv Hw. unfold parse_xmltv_time, re_match.
  change (String.eqb (stamp y m d h mi s +:+ w +:+ "Z") EmptyString) with false.
  rewrite take_digits_stamp by done.
  rewrite skip_spaces_blank by done.
  by rewrite strptime_stamp by done.
Qed.

Lemma parse_offset (y m d h mi s : Z) (w : string) (plus : bool) (hh mm : Z) :
  valid_civil y m d h mi s -> is_blank w = true ->
  0 <= hh <= 99 -> 0 <= mm <= 99 -> hh * 60 + mm < 24 * 60 ->
  let sign := if plus then 1 else -1 in
  in_range (utc y m d h mi s - sign * timedelta_hm hh mm) ->
  parse_xmltv_time
    (stamp y m d h mi s +:+ w +:+ (if plus then "+" else "-") +:+ hhmm hh mm)
  = Ok (Some (utc y m d h mi s - sign * timedelta_hm hh mm)).
Proof.
  intros Hv Hw Hh Hm Hlt sign Hr. unfold parse_xmltv_time, re_match.
  change (String.eqb (stamp y m d h mi s +:+ w
                      +:+ (if plus then "+" else "-") +:+ hhmm hh mm)
            EmptyString) with false.
  rewrite take_digits_stamp by done.
  rewrite skip_spaces_blank by done.
  rewrite strptime_stamp by done.
  assert (Htz : match_tz (skip_spaces ((if plus then "+" else "-") +:+ hhmm hh mm))
                = Some ((if plus then "+" else "-") +:+ hhmm hh mm)).
  { destruct plus; cbv [String.append]; cbn [skip_spaces is_space];
      (replace (is_space _) with false by (vm_compute; reflexivity));
      cbn [match_tz]; rewrite take_digits_hhmm by done; reflexivity. }
  rewrite Htz. cbn [rbind].
  assert (Hs : (if String.eqb (slice 0 1 ((if plus then "+" else "-") +:+ hhmm hh mm)) "+"
                then 1 else -1) = sign) by (by destruct plus).
  assert (Hhh : int (slice 1 3 ((if plus then "+" else "-") +:+ hhmm hh mm)) = hh).
  { transitivity (int (two_digits hh)); [by destruct plus|].
    by apply int_two_digits. }
  assert (Hmm : int (slice 3 5 ((if plus then "+" else "-") +:+ hhmm hh mm)) = mm).
  { transitivity (int (two_digits mm)); [by destruct plus|].
    by apply int_two_digits. }
  assert (Hz : String.eqb ((if plus then "+" else "-") +:+ hhmm hh mm) "Z" = false)
    by (by destruct plus).
  rewrite Hz, Hs, Hhh, Hmm. cbn [negb].
  unfold timezone, astimezone_utc, dt_add.
  assert (Hoff : - timedelta_hm 24 0 < sign * timedelta_hm hh mm < timedelta_hm 24 0).
  { unfold timedelta_hm, US_PER_SECOND. subst sign. destruct plus; lia. }
  rewrite (proj2 (Z.ltb_lt _ _)) by lia. rewrite (proj2 (Z.ltb_lt _ _)) by lia.
  cbn [andb rbind]. unfold in_range in Hr.
  replace (utc y m d h mi s + - (sign * timedelta_hm hh mm))
    with (utc y m d h mi s - sign * timedelta_hm hh mm) by lia.
  rewrite (proj2 (Z.leb_le _ _)) by lia. rewrite (proj2 (Z.ltb_lt _ _)) by lia.
  done.
Qed.

(** C6, amended. On every well-formed timestamp string whose fourteen
    digits form a date and a time of day, whose offset, if any, is below 24
    hours, and whose UTC instant a [datetime] can hold, the parser returns
    the instant read as UTC when no offset or [Z] follows, and the local
    reading minus the offset when a signed [HHMM] offset follows (after
    optional white space); "20240101120000" gives 2024-01-01T12:00:00Z,
    "20240101120000+0200" gives 2024-01-01T10:00:00Z, and the empty string
    and "not-a-date" give the absent result. *)
Theorem parse_xmltv_time_well_formed
    (y m d h mi s : Z) (w : string) (plus : bool) (hh mm : Z) :
  valid_civil y m d h mi s -> is_blank w = true ->
  0 <= hh <= 99 -> 0 <= mm <= 99 -> hh * 60 + mm < 24 * 60 ->
  let sign := if plus then 1 else -1 in
  in_range (utc y m d h mi s - sign * timedelta_hm hh mm) ->
  parse_xmltv_time (stamp y m d h mi s) = Ok (Some (utc y m d h mi s))
  /\ parse_xmltv_time (stamp y m d h mi s +:+ w +:+ "Z")
     = Ok (Some (utc y m d h mi s))
  /\ parse_xmltv_time
       (stamp y m d h mi s +:+ w +:+ (if plus then "+" else "-") +:+ hhmm hh mm)
     = Ok (Some (utc y m d h mi s - sign * timedelta_hm hh mm))
  /\ parse_xmltv_time "20240101120000" = Ok (Some (utc 2024 1 1 12 0 0))
  /\ parse_xmltv_time "20240101120000+0200" = Ok (Some (utc 2024 1 1 10 0 0))
  /\ parse_xmltv_time "" = Ok None
  /\ parse_xmltv_time "not-a-date" = Ok None.
Proof.
  intros Hv Hw Hh Hm Hlt sign Hr.
  split; [by apply parse_plain|].
  split; [by apply parse_zulu|].
  split; [by apply parse_offset|].
  repeat split; vm_compute; reflexivity.
Qed.

Lemma parse_xmltv_time_well_formed_witness :
  parse_xmltv_time (stamp 2024 1 1 12 0 0 +:+ " " +:+ "+" +:+ hhmm 2 0)
  = Ok (Some (utc 2024 1 1 12 0 0 - 1 * timedelta_hm 2 0)).
Proof.
  refine (proj1 (proj2 (proj2
    (parse_xmltv_time_well_formed 2024 1 1 12 0 0 " " true 2 0 _ _ _ _ _ _)))).
  - unfold valid_civil, MINYEAR, MAXYEAR. simpl. lia.
  - reflexivity.
  - lia.
  - lia.
  - lia.
  - unfold in_range. vm_compute. split; [discriminate|reflexivity].
Defined.

(** C6, as stated, fails: not every well-formed string has its offset
    subtracted. An offset that takes the instant out of the years 1 to
    9999, or an offset of 24 hours or more, makes the parser raise. *)
Lemma offset_is_not_always_subtracted :
  ~ (forall y m d h mi s w (plus : bool) hh mm,
       valid_civil y m d h mi s -> is_blank w = true ->
       0 <= hh <= 99 -> 0 <= mm <= 99 ->
       parse_xmltv_time
         (stamp y m d h mi s +:+ w +:+ (if plus then "+" else "-")
          +:+ hhmm hh mm)
       = Ok (Some (utc y m d h mi s
                   - (if plus then 1 else -1) * timedelta_hm hh mm)))
  /\ parse_xmltv_time "00010101000000 +0100" = Raise OverflowError
  /\ parse_xmltv_time "99991231235959 -0001" = Raise OverflowError
  /\ parse_xmltv_time "20240101120000 +2400" = Raise ValueError.
Proof.
  split; [|repeat split; vm_compute; reflexivity].
  intros Hclaim.
  assert (Hv : valid_civil 1 1 1 0 0 0).
  { unfold valid_civil, MINYEAR, MAXYEAR. simpl. lia. }
  specialize (Hclaim 1 1 1 0 0 0 " "%string true 1 0 Hv eq_refl
                ltac:(lia) ltac:(lia)).
  vm_compute in Hclaim. discriminate Hclaim.
Qed.

(** A string that does not start with fourteen digits is unparsable, and
    the parser says so without raising. *)
Lemma parse_xmltv_time_unmatched (ts : string) :
  take_digits 14 ts = None -> parse_xmltv_time ts = Ok None.
Proof.
  intros Hno. unfold parse_xmltv_time, re_match. rewrite Hno.
  by destruct (String.eqb ts EmptyString).
Qed.

(** C4. The parser is not total: fourteen digits that do not form a date
    ([strptime]) and an offset of 24 hours or more ([timezone]) raise
    [ValueError], an offset that moves the instant before year 1 raises
    [OverflowError], and the exception is not caught by [main], which ends
    without writing; characters after the accepted prefix are ignored
    rather than rejected. *)
Theorem parse_xmltv_time_raises :
  parse_xmltv_time "20240230120000" = Raise ValueError
  /\ parse_xmltv_time "20240101120000 +2400" = Raise ValueError
  /\ parse_xmltv_time "00010101000000 +0100" = Raise OverflowError
  /\ parse_xmltv_time "20240101120000xyz" = Ok (Some (utc 2024 1 1 12 0 0))
  /\ (forall serialize gzip_rest mtime fs,
        let bad := mk_programme [("channel", "X1"); ("start", "20240230120000")]%string "Film" in
        let net : network := fun _ _ => Ok (mk_tv [mk_channel "X1" "One"; bad]) in
        let r := main_on serialize gzip_rest ["u"%string] sample_now net mtime fs in
        ending r = Uncaught ValueError /\ fs_trace r = []).
Proof.
  repeat split; vm_compute; reflexivity.
Qed.

Example sample_state_unified :
  tv_root sample_state =
  [mk_channel "X1" "One (A)"; news_noon; mk_channel "X2" "Two"; orphan;
   news_noon_respelled].
Proof. vm_compute. reflexivity. Qed.

(** ** The merge: first record wins *)

Section FirstWinsOrder.
Context {A K : Type} `{Countable K}.
Variable P : A -> bool.
Variable k : A -> K.

(** An eligible record that no eligible earlier record shares its key
    with is retained where it stands, and no retained record before or
    after it has its key. *)
Lemma first_wins_first (l1 l2 : list A) (x : A) :
  P x = true ->
  (forall q, In q l1 -> P q = true -> k q <> k x) ->
  first_wins P k [] (l1 ++ x :: l2)
  = first_wins P k [] l1 ++ x :: first_wins P k (l1 ++ [x]) l2
  /\ (forall y, In y (first_wins P k [] l1) -> k y <> k x)
  /\ (forall y, In y (first_wins P k (l1 ++ [x]) l2) -> k y <> k x).
Proof.
  intros HP Hfresh.
  assert (Hce : claimed_earlier P k l1 x = false).
  { unfold claimed_earlier. apply not_true_iff_false. intros E.
    apply existsb_exists in E as (q & Hq & Hpq).
    apply andb_true_iff in Hpq as [HPq Hk].
    apply bool_decide_eq_true_1 in Hk. by apply (Hfresh q). }
  split; [|split].
  - rewrite first_wins_app. simpl. by rewrite HP, Hce.
  - intros y Hy. apply first_wins_In in Hy as [Hy HPy]. by apply Hfresh.
  - intros y Hy Hk. apply first_wins_key_fresh in Hy.
    rewrite claimed_snoc, HP, Hk in Hy. set_solver.
Qed.

(** A record that is not eligible is dropped and claims no key. *)
Lemma first_wins_ineligible (l1 l2 : list A) (x : A) :
  P x = false ->
  first_wins P k [] (l1 ++ x :: l2)
  = first_wins P k [] l1 ++ first_wins P k (l1 ++ [x]) l2
  /\ claimed P k (l1 ++ [x]) = claimed P k l1.
Proof.
  intros HP. split.
  - rewrite first_wins_app. simpl. by rewrite HP.
  - by rewrite claimed_snoc, HP.
Qed.

(** A record whose key an eligible earlier record has is dropped. *)
Lemma first_wins_later (l1 l2 : list A) (q x : A) :
  In q l1 -> P q = true -> k q = k x ->
  first_wins P k [] (l1 ++ x :: l2)
  = first_wins P k [] l1 ++ first_wins P k (l1 ++ [x]) l2.
Proof.
  intros Hq HPq Hk.
  assert (Hce : claimed_earlier P k l1 x = true).
  { unfold claimed_earlier. apply existsb_exists. exists q.
    split; [done|]. rewrite HPq. by apply bool_decide_eq_true_2. }
  rewrite first_wins_app. simpl. rewrite Hce.
  by rewrite andb_false_r.
Qed.

Lemma first_wins_keys_nil (l : list A) :
  list_to_set (map k (first_wins P k [] l)) = claimed P k l.
Proof.
  pose proof (first_wins_keys P k [] l) as Hk. simpl in Hk.
  rewrite <- Hk. unfold claimed. simpl. set_solver.
Qed.
End FirstWinsOrder.

Lemma merge_docs_in_window (ws we : datetime) (docs : list element)
    (st st' : state) (pr : element) :
  merge_docs ws we st docs = Ok st' -> In pr (all_programmes docs) ->
  in_window ws we pr = Ok (passes ws we pr).
Proof.
  revert st. induction docs as [|doc docs IH]; intros st; [by simpl|].
  simpl merge_docs.
  destruct (merge_source ws we st doc) as [st1|e] eqn:E1; cbn [rbind];
    [|discriminate].
  intros Hrest Hin. unfold all_programmes in Hin. simpl in Hin.
  apply in_app_or in Hin as [Hin|Hin]; [|by eapply IH].
  unfold merge_source in E1.
  eapply add_programmes_in_window in E1 as [b Hb]; [|done].
  unfold passes. by rewrite Hb.
Qed.

(** The state a completed merge loop ends in. *)
Lemma main_loop_spec (net : network) (ws we : datetime) (urls : list string)
    (st : state) :
  snd (main_loop net ws we urls initial_state) = Ok st ->
  out_channels st
  = first_wins has_id channel_id [] (all_channels (fetched_docs net urls))
  /\ out_programmes st
     = first_wins (passes ws we) programme_key []
         (all_programmes (fetched_docs net urls))
  /\ channel_ids_seen st
     = claimed has_id channel_id (all_channels (fetched_docs net urls))
  /\ programme_keys_seen st
     = claimed (passes ws we) programme_key
         (all_programmes (fetched_docs net urls))
  /\ sources_ok st = length (fetched_docs net urls).
Proof.
  rewrite main_loop_merge_docs. intros Hrun.
  by apply (merge_docs_spec ws we _ _ _ [] []) in Hrun.
Qed.

Section FirstWinsRepresented.
Context {A K : Type} `{Countable K}.
Variable P : A -> bool.
Variable k : A -> K.

(** The key of every eligible record is the key of a retained record. *)
Lemma first_wins_represented (l : list A) (x : A) :
  In x l -> P x = true ->
  exists q, In q (first_wins P k [] l) /\ k q = k x.
Proof.
  intros Hx HP.
  assert (Hkey : k x ∈ claimed P k l).
  { apply elem_of_list_to_set, list_elem_of_In, in_map_iff.
    exists x. split; [done|]. by apply filter_In. }
  rewrite <- first_wins_keys_nil in Hkey.
  apply elem_of_list_to_set, list_elem_of_In, in_map_iff in Hkey
    as (q & Hk & Hq).
  by exists q.
Qed.
End FirstWinsRepresented.

Lemma in_window_by_key (ws we : datetime) (p q : element) :
  programme_key p = programme_key q -> in_window ws we p = in_window ws we q.
Proof.
  unfold programme_key, in_window. intros Hkey.
  injection Hkey as _ Hstart Hstop _. by rewrite Hstart, Hstop.
Qed.

(** ** The window test *)

(** C2. The intersection test keeps a programme without parsed timestamps;
    with only a start, exactly when start <= win_end; with only a stop,
    exactly when stop >= win_start; with both, exactly when both hold. The
    loop of main asks this test on the parsed start and stop attributes: a
    programme that fails it leaves the state of the merge as it was, one
    that passes it is appended unless its key has been seen, and in a run
    whose loop completes the key of a programme record is the key of a
    retained programme exactly when the record passes the test. *)
Theorem intersects_window_policy (win_start win_end : datetime) :
  intersects_window None None win_start win_end = true
  /\ (forall start,
        intersects_window (Some start) None win_start win_end = true
        <-> start <= win_end)
  /\ (forall stop,
        intersects_window None (Some stop) win_start win_end = true
        <-> stop >= win_start)
  /\ (forall start stop,
        intersects_window (Some start) (Some stop) win_start win_end = true
        <-> start <= win_end /\ stop >= win_start)
  /\ (forall st pr start_dt stop_dt,
        parse_xmltv_time (or_empty (get pr "start")) = Ok start_dt ->
        parse_xmltv_time (or_empty (get pr "stop")) = Ok stop_dt ->
        intersects_window start_dt stop_dt win_start win_end = false ->
        add_programme win_start win_end st pr = Ok st)
  /\ (forall pr start_dt stop_dt,
        parse_xmltv_time (or_empty (get pr "start")) = Ok start_dt ->
        parse_xmltv_time (or_empty (get pr "stop")) = Ok stop_dt ->
        in_window win_start win_end pr
        = Ok (intersects_window start_dt stop_dt win_start win_end))
  /\ (forall st pr start_dt stop_dt,
        parse_xmltv_time (or_empty (get pr "start")) = Ok start_dt ->
        parse_xmltv_time (or_empty (get pr "stop")) = Ok stop_dt ->
        intersects_window start_dt stop_dt win_start win_end = true ->
        programme_key pr ∉ programme_keys_seen st ->
        add_programme win_start win_end st pr
        = Ok {| tv_root := tv_root st ++ [pr];
                channel_ids_seen := channel_ids_seen st;
                programme_keys_seen :=
                  {[programme_key pr]} ∪ programme_keys_seen st;
                sources_ok := sources_ok st |})
  /\ (forall net urls st,
        snd (main_loop net win_start win_end urls initial_state) = Ok st ->
        forall pr, In pr (all_programmes (fetched_docs net urls)) ->
        exists start_dt stop_dt,
          parse_xmltv_time (or_empty (get pr "start")) = Ok start_dt
          /\ parse_xmltv_time (or_empty (get pr "stop")) = Ok stop_dt
          /\ (intersects_window start_dt stop_dt win_start win_end = true
              <-> exists q, In q (out_programmes st)
                            /\ programme_key q = programme_key pr)
          /\ (intersects_window start_dt stop_dt win_start win_end = false
              -> ~ In pr (out_programmes st)))
  /\ (In old_show (all_programmes (fetched_docs sample_net sample_urls))
      /\ In news_noon (all_programmes (fetched_docs sample_net sample_urls))
      /\ out_programmes sample_state
         = [news_noon; orphan; news_noon_respelled]).
Proof.
  split; [reflexivity|].
  split; [intros start; simpl; apply Z.leb_le|].
  split; [intros stop; simpl; rewrite Z.leb_le; lia|].
  split; [intros start stop; simpl; rewrite andb_true_iff, !Z.leb_le; lia|].
  split.
  { intros st pr start_dt stop_dt Hstart Hstop Hout.
    unfold add_programme, in_window. rewrite Hstart, Hstop. cbn [rbind].
    by rewrite Hout. }
  split.
  { intros pr start_dt stop_dt Hstart Hstop.
    unfold in_window. by rewrite Hstart, Hstop. }
  split.
  { intros st pr start_dt stop_dt Hstart Hstop Hin Hfresh.
    unfold add_programme, in_window. rewrite Hstart, Hstop. cbn [rbind].
    rewrite Hin. cbn [negb]. by rewrite (bool_decide_eq_false_2 _ Hfresh). }
  split; [|repeat split; vm_compute; auto].
  intros net urls st Hrun pr Hpr.
  pose proof (main_loop_spec net win_start win_end urls st Hrun)
    as (_ & Hop & _).
  rewrite main_loop_merge_docs in Hrun.
  pose proof (merge_docs_in_window _ _ _ _ _ _ Hrun Hpr) as Hwin.
  assert (Hparsed : exists start_dt stop_dt,
    parse_xmltv_time (or_empty (get pr "start")) = Ok start_dt
    /\ parse_xmltv_time (or_empty (get pr "stop")) = Ok stop_dt
    /\ passes win_start win_end pr
       = intersects_window start_dt stop_dt win_start win_end).
  { unfold in_window in Hwin.
    destruct (parse_xmltv_time (or_empty (get pr "start"))) as [start_dt|];
      [|discriminate].
    destruct (parse_xmltv_time (or_empty (get pr "stop"))) as [stop_dt|];
      [|discriminate].
    cbn [rbind] in Hwin. injection Hwin as Hwin. by exists start_dt, stop_dt. }
  destruct Hparsed as (start_dt & stop_dt & Hstart & Hstop & Hpass).
  exists start_dt, stop_dt. split; [done|]. split; [done|].
  rewrite <- Hpass.
  assert (Hretained : forall q, In q (out_programmes st) ->
                                passes win_start win_end q = true).
  { intros q Hq. rewrite Hop in Hq. by apply first_wins_In in Hq as [_ ?]. }
  split; [split|].
  - intros Hkeep. rewrite Hop. by apply first_wins_represented.
  - intros (q & Hq & Hk). unfold passes.
    rewrite (in_window_by_key win_start win_end pr q (eq_sym Hk)).
    apply Hretained in Hq. exact Hq.
  - intros Hdrop Hin. apply Hretained in Hin. congruence.
Qed.

Lemma intersects_window_policy_witness :
  add_programme sample_win_start sample_win_end initial_state old_show
  = Ok initial_state
  /\ add_programme sample_win_start sample_win_end initial_state news_noon
     = Ok {| tv_root := [] ++ [news_noon];
             channel_ids_seen := ∅;
             programme_keys_seen := {[programme_key news_noon]} ∪ ∅;
             sources_ok := 0 |}.
Proof.
  pose proof (intersects_window_policy sample_win_start sample_win_end)
    as (_ & _ & _ & _ & Hdrop & _ & Hkeep & _).
  split.
  - apply (Hdrop initial_state old_show (Some (utc 2023 1 1 12 0 0))
             (Some (utc 2023 1 1 13 0 0))); vm_compute; reflexivity.
  - apply (Hkeep initial_state news_noon (Some (utc 2024 1 1 12 0 0))
             (Some (utc 2024 1 1 13 0 0)));
      [vm_compute; reflexivity .. | apply not_elem_of_empty].
Defined.

(** C1. The dedup key of a programme is the tuple of its channel attribute,
    its raw start string, its raw stop string and its trimmed title text,
    compared as strings: two spellings of one instant are two keys. In a run
    whose merge loop completes, the programme elements of the unified
    document are, in order, the records that pass the window test and whose
    key no earlier passing record of the ordered sources has: the first
    such record is retained where it stands and every later record with its
    key is dropped; the keys marked seen are those of the passing records
    only. *)
Theorem programme_first_wins (net : network) (win_start win_end : datetime)
    (urls : list string) (st : state) :
  snd (main_loop net win_start win_end urls initial_state) = Ok st ->
  let records := all_programmes (fetched_docs net urls) in
  let keep := passes win_start win_end in
  (forall pr, In pr records -> in_window win_start win_end pr = Ok (keep pr))
  /\ out_programmes st = first_wins keep programme_key [] records
  /\ NoDup (map programme_key (out_programmes st))
  /\ programme_keys_seen st = claimed keep programme_key records
  /\ (forall l1 x l2, records = l1 ++ x :: l2 -> keep x = true ->
        (forall q, In q l1 -> keep q = true ->
                   programme_key q <> programme_key x) ->
        out_programmes st
        = first_wins keep programme_key [] l1
          ++ x :: first_wins keep programme_key (l1 ++ [x]) l2
        /\ (forall y, In y (first_wins keep programme_key [] l1) ->
                      programme_key y <> programme_key x)
        /\ (forall y, In y (first_wins keep programme_key (l1 ++ [x]) l2) ->
                      programme_key y <> programme_key x))
  /\ (forall l1 x l2, records = l1 ++ x :: l2 ->
        keep x = false
        \/ (exists q, In q l1 /\ keep q = true
                      /\ programme_key q = programme_key x) ->
        out_programmes st
        = first_wins keep programme_key [] l1
          ++ first_wins keep programme_key (l1 ++ [x]) l2)
  /\ (forall l1 x, keep x = false ->
        claimed keep programme_key (l1 ++ [x]) = claimed keep programme_key l1)
  /\ (forall pr,
        programme_key pr
        = (or_empty (get pr "channel"), or_empty (get pr "start"),
           or_empty (get pr "stop"), strip (or_empty (findtext pr "title"))))
  /\ (forall p q,
        programme_key p = programme_key q
        <-> or_empty (get p "channel") = or_empty (get q "channel")
            /\ or_empty (get p "start") = or_empty (get q "start")
            /\ or_empty (get p "stop") = or_empty (get q "stop")
            /\ strip (or_empty (findtext p "title"))
               = strip (or_empty (findtext q "title")))
  /\ programme_key news_noon
     = ("X1", "20240101120000 +0000", "20240101130000 +0000", "News")%string
  /\ (parse_xmltv_time (or_empty (get news_noon "start"))
      = parse_xmltv_time (or_empty (get news_noon_respelled "start"))
      /\ parse_xmltv_time (or_empty (get news_noon "stop"))
         = parse_xmltv_time (or_empty (get news_noon_respelled "stop"))
      /\ programme_key news_noon <> programme_key news_noon_respelled)
  /\ (forall pr, In pr records -> keep pr = true ->
        exists q, In q (out_programmes st)
                  /\ programme_key q = programme_key pr)
  /\ (forall q, In q (out_programmes st) -> In q records /\ keep q = true)
  /\ out_programmes sample_state = [news_noon; orphan; news_noon_respelled].
Proof.
  intros Hrun records keep.
  pose proof (main_loop_spec net win_start win_end urls st Hrun)
    as (_ & Hop & _ & Hsp & _).
  fold records keep in Hop, Hsp.
  split.
  { intros pr Hin. rewrite main_loop_merge_docs in Hrun.
    by apply (merge_docs_in_window _ _ _ _ _ _ Hrun). }
  split; [done|].
  split; [rewrite Hop; apply first_wins_NoDup|].
  split; [done|].
  split.
  { intros l1 x l2 Hsplit Hx Hfresh. rewrite Hop, Hsplit.
    by apply first_wins_first. }
  split.
  { intros l1 x l2 Hsplit [Hx|(q & Hq & Hkq & Hk)]; rewrite Hop, Hsplit.
    - by apply first_wins_ineligible.
    - by apply (first_wins_later keep programme_key l1 l2 q x). }
  split; [intros l1 x Hx; by apply first_wins_ineligible|].
  split; [reflexivity|].
  split.
  { intros p q. unfold programme_key. split.
    - intros Heq. by injection Heq as -> -> -> ->.
    - by intros (-> & -> & -> & ->). }
  split; [vm_compute; reflexivity|].
  split.
  { split; [vm_compute; reflexivity|]. split; [vm_compute; reflexivity|].
    vm_compute. discriminate. }
  split; [intros pr Hpr Hkeep; rewrite Hop; by apply first_wins_represented|].
  split; [intros q Hq; rewrite Hop in Hq; by apply first_wins_In in Hq|].
  vm_compute. reflexivity.
Qed.

Lemma programme_first_wins_witness :
  out_programmes sample_state = [news_noon; orphan; news_noon_respelled].
Proof.
  refine (eq_trans (proj1 (proj2
    (programme_first_wins sample_net sample_win_start sample_win_end
       sample_urls sample_state _))) _).
  - apply ok_state_of. by_evaluation.
  - by_evaluation.
Defined.

(** The dedup key holds the raw strings: two spellings of the same instants
    are two keys, and both records are retained. *)
Example raw_spellings_are_distinct :
  in_window sample_win_start sample_win_end news_noon = Ok true
  /\ parse_xmltv_time (or_empty (get news_noon "start"))
     = parse_xmltv_time (or_empty (get news_noon_respelled "start"))
  /\ parse_xmltv_time (or_empty (get news_noon "stop"))
     = parse_xmltv_time (or_empty (get news_noon_respelled "stop"))
  /\ programme_key news_noon <> programme_key news_noon_respelled
  /\ programme_key news_noon = programme_key news_noon_again
  /\ In news_noon (out_programmes sample_state)
  /\ In news_noon_respelled (out_programmes sample_state)
  /\ ~ In news_noon_again (out_programmes sample_state).
Proof.
  split; [vm_compute; reflexivity|].
  split; [vm_compute; reflexivity|].
  split; [vm_compute; reflexivity|].
  split; [vm_compute; discriminate|].
  split; [vm_compute; reflexivity|].
  split; [vm_compute; auto|].
  split; [vm_compute; auto|].
  vm_compute. intros [H|[H|[H|[]]]]; discriminate.
Qed.

(** C5. The id of a channel record is its id attribute, the empty string
    when it has none. A channel record is appended exactly when its id is
    non-empty and not yet seen. In a run whose merge loop completes, the channel elements
    of the unified document are, in order, the records with a non-empty id
    that no earlier record of the ordered sources has: the first record
    with an id is retained, as the element the source holds, and every
    later record with that id is dropped. *)
Theorem channel_first_wins (net : network) (win_start win_end : datetime)
    (urls : list string) (st : state) :
  snd (main_loop net win_start win_end urls initial_state) = Ok st ->
  let records := all_channels (fetched_docs net urls) in
  (forall st0 ch,
      channel_id ch <> EmptyString -> channel_id ch ∉ channel_ids_seen st0 ->
      tv_root (add_channel st0 ch) = tv_root st0 ++ [ch]
      /\ channel_ids_seen (add_channel st0 ch)
         = {[channel_id ch]} ∪ channel_ids_seen st0)
  /\ (forall st0 ch,
        channel_id ch = EmptyString \/ channel_id ch ∈ channel_ids_seen st0 ->
        add_channel st0 ch = st0)
  /\ out_channels st = first_wins has_id channel_id [] records
  /\ NoDup (map channel_id (out_channels st))
  /\ (forall ch, In ch (out_channels st) ->
        In ch records /\ channel_id ch <> EmptyString)
  /\ (forall l1 x l2, records = l1 ++ x :: l2 ->
        channel_id x <> EmptyString ->
        (forall q, In q l1 -> channel_id q <> channel_id x) ->
        out_channels st
        = first_wins has_id channel_id [] l1
          ++ x :: first_wins has_id channel_id (l1 ++ [x]) l2
        /\ (forall y, In y (first_wins has_id channel_id [] l1) ->
                      channel_id y <> channel_id x)
        /\ (forall y, In y (first_wins has_id channel_id (l1 ++ [x]) l2) ->
                      channel_id y <> channel_id x))
  /\ (forall l1 x l2, records = l1 ++ x :: l2 ->
        channel_id x = EmptyString
        \/ (exists q, In q l1 /\ channel_id q = channel_id x) ->
        out_channels st
        = first_wins has_id channel_id [] l1
          ++ first_wins has_id channel_id (l1 ++ [x]) l2)
  /\ (forall ch,
        channel_id ch
        = match get ch "id" with Some cid => cid | None => EmptyString end)
  /\ (forall t cid attrs x c tl,
        get (Element t (("id"%string, cid) :: attrs) x c tl) "id" = Some cid)
  /\ channel_id (mk_channel "X1" "One (A)") = "X1"%string
  /\ (forall ch, In ch records -> channel_id ch <> EmptyString ->
        exists q, In q (out_channels st) /\ channel_id q = channel_id ch)
  /\ (forall l1 a b l2 l3, records = l1 ++ a :: l2 ++ b :: l3 ->
        channel_id a = channel_id b -> channel_id a <> EmptyString ->
        (forall q, In q l1 -> channel_id q <> channel_id a) ->
        In a (out_channels st)
        /\ forall y, In y (out_channels st) -> channel_id y = channel_id a ->
                     y = a)
  /\ out_channels sample_state
     = [mk_channel "X1" "One (A)"; mk_channel "X2" "Two"].
Proof.
  intros Hrun records.
  pose proof (main_loop_spec net win_start win_end urls st Hrun)
    as (Hoc & _ & _ & _ & _).
  fold records in Hoc.
  assert (Hid : forall ch, has_id ch = true <-> channel_id ch <> EmptyString).
  { intros ch. unfold has_id. rewrite negb_true_iff.
    rewrite <- not_true_iff_false, String.eqb_eq. done. }
  split.
  { intros st0 ch Hne Hfresh. unfold add_channel.
    fold (has_id ch). rewrite (proj2 (Hid ch) Hne).
    by rewrite bool_decide_eq_false_2. }
  split.
  { intros st0 ch [Hempty|Hseen]; unfold add_channel.
    - rewrite Hempty. done.
    - rewrite (bool_decide_eq_true_2 _ Hseen). by rewrite andb_false_r. }
  split; [done|].
  split; [rewrite Hoc; apply first_wins_NoDup|].
  split.
  { intros ch Hin. rewrite Hoc in Hin. apply first_wins_In in Hin as [? ?].
    split; [done|]. by apply Hid. }
  split.
  { intros l1 x l2 Hsplit Hx Hfresh. rewrite Hoc, Hsplit.
    apply first_wins_first; [by apply Hid|]. intros q Hq _. by apply Hfresh. }
  split.
  { intros l1 x l2 Hsplit [Hx|(q & Hq & Hk)]; rewrite Hoc, Hsplit.
    - apply first_wins_ineligible. unfold has_id. by rewrite Hx.
    - destruct (has_id x) eqn:Hx.
      + apply (first_wins_later has_id channel_id l1 l2 q x); [done| |done].
        apply Hid. rewrite Hk. by apply Hid.
      + by apply first_wins_ineligible. }
  split; [intros ch; unfold channel_id, or_empty; by destruct (get ch "id")|].
  split; [reflexivity|].
  split; [reflexivity|].
  split.
  { intros ch Hch Hne. rewrite Hoc.
    apply first_wins_represented; [done|]. by apply Hid. }
  split; [|vm_compute; reflexivity].
  intros l1 a b l2 l3 Hsplit Hab Hne Hfresh.
  destruct (first_wins_first has_id channel_id l1 (l2 ++ b :: l3) a)
    as (Heq & Hbefore & Hafter); [by apply Hid | by intros q Hq _; apply Hfresh |].
  rewrite Hoc, Hsplit, Heq. split.
  - apply in_or_app. right. by left.
  - intros y Hy Hk. apply in_app_or in Hy as [Hy|[Hy|Hy]].
    + by destruct (Hbefore y Hy).
    + done.
    + by destruct (Hafter y Hy).
Qed.



Lemma channel_first_wins_witness :
  out_channels sample_state
  = [mk_channel "X1" "One (A)"; mk_channel "X2" "Two"].
Proof.
  refine (eq_trans (proj1 (proj2 (proj2
    (channel_first_wins sample_net sample_win_start sample_win_end
       sample_urls sample_state _)))) _).
  - apply ok_state_of. by_evaluation.
  - by_evaluation.
Defined.

Example sample_channels :
  out_channels sample_state
  = [mk_channel "X1" "One (A)"; mk_channel "X2" "Two"].
Proof. vm_compute. reflexivity. Qed.

(** C9. Whether a programme is retained is decided by the window test and
    the dedup key alone: the channel ids seen so far play no part, a missing
    channel attribute counts as the empty string in the key, and two runs
    whose sources hold the same programme records retain the same
    programmes whatever channel records they hold. *)
Theorem programme_retention_ignores_channels (win_start win_end : datetime) :
  (forall st pr,
      (exists st', add_programme win_start win_end st pr = Ok st'
                   /\ tv_root st' = tv_root st ++ [pr])
      <-> in_window win_start win_end pr = Ok true
          /\ programme_key pr ∉ programme_keys_seen st)
  /\ (forall pr, get pr "channel" = None \/ get pr "channel" = Some EmptyString ->
        exists start_s stop_s title,
          programme_key pr = (EmptyString, start_s, stop_s, title))
  /\ (forall net1 net2 urls1 urls2 st1 st2,
        snd (main_loop net1 win_start win_end urls1 initial_state) = Ok st1 ->
        snd (main_loop net2 win_start win_end urls2 initial_state) = Ok st2 ->
        all_programmes (fetched_docs net1 urls1)
        = all_programmes (fetched_docs net2 urls2) ->
        out_programmes st1 = out_programmes st2
        /\ programme_keys_seen st1 = programme_keys_seen st2).
Proof.
  split; [|split].
  - intros st pr. unfold add_programme. split.
    + intros (st' & Hrun & Htv).
      destruct (in_window win_start win_end pr) as [[|]|e]; cbn in Hrun;
        [| |discriminate].
      * split; [done|]. intros Hseen.
        rewrite (bool_decide_eq_true_2 _ Hseen) in Hrun.
        injection Hrun as <-. apply (f_equal length) in Htv.
        rewrite length_app in Htv. simpl in Htv. lia.
      * injection Hrun as <-. apply (f_equal length) in Htv.
        rewrite length_app in Htv. simpl in Htv. lia.
    + intros [Hwin Hfresh]. rewrite Hwin. cbn.
      rewrite (bool_decide_eq_false_2 _ Hfresh). eauto.
  - intros pr Hch. unfold programme_key.
    destruct Hch as [-> | ->]; simpl; eauto.
  - intros net1 net2 urls1 urls2 st1 st2 Hrun1 Hrun2 Hsame.
    apply main_loop_spec in Hrun1 as (_ & Hop1 & _ & Hsp1 & _).
    apply main_loop_spec in Hrun2 as (_ & Hop2 & _ & Hsp2 & _).
    by rewrite Hop1, Hop2, Hsp1, Hsp2, Hsame.
Qed.

Lemma programme_retention_ignores_channels_witness :
  out_programmes sample_state = out_programmes sample_state_no_channels
  /\ programme_keys_seen sample_state
     = programme_keys_seen sample_state_no_channels.
Proof.
  refine (proj2 (proj2
    (programme_retention_ignores_channels sample_win_start sample_win_end))
    sample_net sample_net_no_channels sample_urls sample_urls
    sample_state sample_state_no_channels _ _ _);
    [apply ok_state_of; by_evaluation .. | by_evaluation].
Defined.

Example sample_no_channels :
  out_channels sample_state_no_channels = []
  /\ out_programmes sample_state_no_channels
     = [news_noon; orphan; news_noon_respelled].
Proof. split; vm_compute; reflexivity. Qed.

(** ** The fetch retry loop *)

(** Every way [fetch_xml] can go with three attempts. *)
Lemma fetch_xml_cases (net : network) (url : string) :
  fetch_xml net url 3 =
  match net url 1%nat with
  | Ok doc => ([EvGet url], Ok doc)
  | Raise _ =>
      match net url 2%nat with
      | Ok doc => ([EvGet url; EvSleep 2; EvGet url], Ok doc)
      | Raise _ =>
          match net url 3%nat with
          | Ok doc =>
              ([EvGet url; EvSleep 2; EvGet url; EvSleep 4; EvGet url], Ok doc)
          | Raise e =>
              ([EvGet url; EvSleep 2; EvGet url; EvSleep 4; EvGet url;
                EvSleep 6], Raise e)
          end
      end
  end.
Proof.
  unfold fetch_xml. cbn [fetch_loop].
  destruct (net url 1%nat); [done|].
  destruct (net url 2%nat); [done|].
  by destruct (net url 3%nat).
Qed.

(** At most three requests per source, and the error that is propagated is
    the one of the last attempt. *)
Lemma fetch_xml_attempts (net : network) (url : string) :
  (length (List.filter is_get (fst (fetch_xml net url 3))) <= 3)%nat
  /\ (forall e, fetched net url = Raise e -> net url 3%nat = Raise e).
Proof.
  unfold fetched. rewrite fetch_xml_cases.
  destruct (net url 1%nat); [simpl; split; [lia|done]|].
  destruct (net url 2%nat); [simpl; split; [lia|done]|].
  destruct (net url 3%nat); simpl; split; try lia; try done.
Qed.

(** A source whose fetch fails is logged and skipped: the loop goes on
    with the next source and the state it had. *)
Lemma main_loop_skips_failed (net : network) (ws we : datetime)
    (url : string) (rest : list string) (st : state) (e : exn) :
  fetched net url = Raise e ->
  main_loop net ws we (url :: rest) st
  = (fst (fetch_xml net url 3) ++ EvLog url e :: fst (main_loop net ws we rest st),
     snd (main_loop net ws we rest st)).
Proof.
  unfold fetched. simpl. destruct (fetch_xml net url 3) as [evs r].
  simpl. intros ->. by destruct (main_loop net ws we rest st).
Qed.

(** When every fetch fails the loop completes, with nothing merged. *)
Lemma main_loop_all_failed (net : network) (ws we : datetime)
    (urls : list string) (st : state) :
  (forall url, In url urls -> exists e, fetched net url = Raise e) ->
  snd (main_loop net ws we urls st) = Ok st.
Proof.
  induction urls as [|url urls IH]; intros Hdown; [done|].
  destruct (Hdown url) as [e He]; [by left|].
  rewrite (main_loop_skips_failed net ws we url urls st e He). simpl.
  apply IH. intros u Hu. apply Hdown. by right.
Qed.

(** C7. For a source whose three attempts fail, [fetch_xml] makes three
    requests and raises the error of the third, and the merge loop logs
    it and goes on; but it sleeps after the third attempt as well (6
    seconds), not only between attempts. *)
Theorem fetch_xml_sleeps_after_last_attempt :
  fetch_xml sample_net "down" 3
  = ([EvGet "down"; EvSleep 2; EvGet "down"; EvSleep 4; EvGet "down"; EvSleep 6],
     Raise (RequestError "third attempt: HTTP 503"))
  /\ fst (main_loop sample_net sample_win_start sample_win_end
            ["down"; "a"]%string initial_state)
     = [EvGet "down"; EvSleep 2; EvGet "down"; EvSleep 4; EvGet "down";
        EvSleep 6; EvLog "down" (RequestError "third attempt: HTTP 503");
        EvGet "a"].
Proof.
  split; vm_compute; reflexivity.
Qed.

(** ** The fallback guard *)

Lemma claimed_first_wins_nil {K : Type} `{Countable K}
    (P : element -> bool) (k : element -> K) (l : list element) :
  size (claimed P k l) = 0%nat <-> first_wins P k [] l = [].
Proof.
  rewrite <- (first_wins_keys_nil P k l).
  destruct (first_wins P k [] l) as [|x out].
  - split; [done|]. intros _.
    change (size (∅ : gset K) = 0%nat). by apply size_empty_iff.
  - split; [|done]. intros Hsize.
    apply size_empty_iff in Hsize. cbn [map] in Hsize.
    rewrite list_to_set_cons in Hsize. set_solver.
Qed.

Lemma total_failure_spec (net : network) (ws we : datetime)
    (urls : list string) (st : state) :
  snd (main_loop net ws we urls initial_state) = Ok st ->
  total_failure st = true
  <-> sources_ok st = 0%nat \/ (out_channels st = [] /\ out_programmes st = []).
Proof.
  intros Hrun. apply main_loop_spec in Hrun as (Hoc & Hop & Hsc & Hsp & _).
  unfold total_failure.
  rewrite orb_true_iff, andb_true_iff, !Nat.eqb_eq.
  rewrite Hsc, Hsp, !claimed_first_wins_nil, <- Hoc, <- Hop. done.
Qed.

Lemma main_on_completed (serialize : list element -> bytes)
    (gzip_rest : Z -> bytes -> bytes) (urls : list string) (now : datetime)
    (net : network) (mtime : Z) (fs : filesystem) (ws we : datetime) (st : state) :
  dt_add now (- timedelta_days KEEP_PAST_DAYS) = Ok ws ->
  dt_add now (timedelta_days KEEP_FUTURE_DAYS) = Ok we ->
  snd (main_loop net ws we urls initial_state) = Ok st ->
  let r := main_on serialize gzip_rest urls now net mtime fs in
  events r = fst (main_loop net ws we urls initial_state)
  /\ (fs_trace r, ending r)
     = if total_failure st then fallback_to_previous fs
       else (write_file fs OUTPUT_NAME
               (gzip_member gzip_rest mtime (serialize (tv_root st))),
             Returned).
Proof.
  intros Hws Hwe Hrun. unfold main_on. rewrite Hws, Hwe.
  destruct (main_loop net ws we urls initial_state) as [evs r'].
  simpl in Hrun. subst r'.
  destruct (total_failure st); [|done].
  by destruct (fallback_to_previous fs).
Qed.

(** C3. In a run whose merge loop completes, the fallback path (the only
    one that ends in [sys.exit]) is taken exactly when no source was
    fetched or neither a channel nor a programme was retained. Then, if the
    previous artifact exists, the run exits with status 0 and the output
    path ends up with the bytes of the previous artifact; if it does not,
    the run exits with status 1 and writes nothing. Otherwise the run
    returns and the output path holds the compressed serialization. *)
Theorem fallback_guard (serialize : list element -> bytes)
    (gzip_rest : Z -> bytes -> bytes) (urls : list string) (now : datetime)
    (net : network) (mtime : Z) (fs : filesystem) (ws we : datetime) (st : state) :
  dt_add now (- timedelta_days KEEP_PAST_DAYS) = Ok ws ->
  dt_add now (timedelta_days KEEP_FUTURE_DAYS) = Ok we ->
  snd (main_loop net ws we urls initial_state) = Ok st ->
  let r := main_on serialize gzip_rest urls now net mtime fs in
  let failed := sources_ok st = 0%nat
                \/ (out_channels st = [] /\ out_programmes st = []) in
  sources_ok st = length (fetched_docs net urls)
  /\ ((exists code, ending r = SystemExit code) <-> failed)
  /\ (failed -> (fs_trace r, ending r) = fallback_to_previous fs)
  /\ (failed -> forall previous, fs !! PREVIOUS_DIST = Some previous ->
        exit_status (ending r) = 0
        /\ final_fs fs r !! OUTPUT_NAME = Some previous
        /\ final_fs fs r !! PREVIOUS_DIST = Some previous)
  /\ (failed -> fs !! PREVIOUS_DIST = None ->
        exit_status (ending r) = 1 /\ fs_trace r = [] /\ final_fs fs r = fs)
  /\ (~ failed ->
        ending r = Returned
        /\ final_fs fs r !! OUTPUT_NAME
           = Some (gzip_member gzip_rest mtime (serialize (tv_root st)))).
Proof.
  intros Hws Hwe Hrun r failed.
  pose proof (main_on_completed serialize gzip_rest urls now net mtime fs
                ws we st Hws Hwe Hrun) as [_ Hr].
  fold r in Hr.
  pose proof (total_failure_spec net ws we urls st Hrun) as Hguard.
  fold failed in Hguard.
  assert (Hfall : failed -> (fs_trace r, ending r) = fallback_to_previous fs).
  { intros Hf. apply Hguard in Hf. by rewrite Hf in Hr. }
  split; [by apply main_loop_spec in Hrun as (_ & _ & _ & _ & ?)|].
  split.
  { split.
    - intros [code Hcode]. apply Hguard.
      destruct (total_failure st); [done|].
      injection Hr as _ Hend. congruence.
    - intros Hf. apply Hfall in Hf. unfold fallback_to_previous in Hf.
      destruct (fs !! PREVIOUS_DIST); injection Hf as _ ->; eauto. }
  split; [done|].
  split.
  { intros Hf previous Hprev. apply Hfall in Hf.
    unfold fallback_to_previous in Hf. rewrite Hprev in Hf.
    injection Hf as Htr Hend. unfold final_fs. rewrite Htr, Hend. simpl.
    split; [done|]. split; [by rewrite lookup_insert_eq|].
    by rewrite lookup_insert_ne. }
  split.
  { intros Hf Hnone. apply Hfall in Hf.
    unfold fallback_to_previous in Hf. rewrite Hnone in Hf.
    injection Hf as Htr Hend. unfold final_fs. by rewrite Htr, Hend. }
  intros Hnf.
  destruct (total_failure st) eqn:E; [by destruct Hnf; apply Hguard|].
  injection Hr as Htr Hend. unfold final_fs. rewrite Htr, Hend. simpl.
  split; [done|]. by rewrite lookup_insert_eq.
Qed.

Lemma fallback_guard_witness :
  let fs : filesystem := {[ PREVIOUS_DIST := sample_previous ]} in
  let r := main_on sample_serialize sample_gzip_rest ["down"]%string
             sample_now sample_net 0 fs in
  exit_status (ending r) = 0
  /\ final_fs fs r !! OUTPUT_NAME = Some sample_previous
  /\ final_fs fs r !! PREVIOUS_DIST = Some sample_previous.
Proof.
  intros fs r.
  refine (proj1 (proj2 (proj2 (proj2
    (fallback_guard sample_serialize sample_gzip_rest ["down"]%string
       sample_now sample_net 0 fs sample_win_start sample_win_end
       initial_state _ _ _)))) _ sample_previous _).
  - vm_compute. reflexivity.
  - vm_compute. reflexivity.
  - vm_compute. reflexivity.
  - left. reflexivity.
  - vm_compute. reflexivity.
Defined.

(** ** The writer *)

(** A run that writes an artifact to an output path that did not hold an
    empty file is seen with the path truncated and the artifact not yet
    there. *)
Lemma write_file_not_atomic (fs : filesystem) (r : run) (data : bytes) :
  fs_trace r = write_file fs OUTPUT_NAME data ->
  data <> [] -> fs !! OUTPUT_NAME <> Some [] ->
  ~ output_never_partial fs r.
Proof.
  intros Htr Hdata Hold Hclaim.
  destruct (Hclaim (<[OUTPUT_NAME := []]> fs)) as [Hbefore|Hafter].
  - rewrite Htr. by left.
  - rewrite lookup_insert_eq in Hbefore. by apply Hold.
  - unfold final_fs in Hafter. rewrite Htr in Hafter. simpl in Hafter.
    rewrite !lookup_insert_eq in Hafter. congruence.
Qed.

(** C8, as stated, fails: while the artifact is being written the output
    path holds an empty file, which is neither what was there before nor
    the complete artifact. *)
Lemma output_is_partial_while_written :
  ~ output_never_partial ∅
      (main_on sample_serialize sample_gzip_rest ["a"]%string sample_now
         sample_net 0 ∅).
Proof.
  pose proof (main_on_completed sample_serialize sample_gzip_rest
                ["a"]%string sample_now sample_net 0 ∅
                sample_win_start sample_win_end
                (state_of (snd (main_loop sample_net sample_win_start
                                  sample_win_end ["a"]%string initial_state))))
    as Hrun.
  destruct Hrun as [_ Hrun]; [by_evaluation..|].
  match type of Hrun with
  | context [total_failure ?st] =>
      replace (total_failure st) with false in Hrun by by_evaluation
  end.
  apply (f_equal fst) in Hrun. cbn [fst] in Hrun.
  apply (write_file_not_atomic _ _ _ Hrun); [discriminate|].
  by rewrite lookup_empty.
Qed.

(** C8, amended. The output path is touched only once the merge loop has
    completed and the guard has decided, when the complete document (or the
    previous artifact) is at hand: a run either writes nothing, or truncates
    the output path and then leaves the complete artifact on it, the
    previous artifact's bytes on the fallback path and the compressed
    serialization of the unified document otherwise. The write is not
    atomic. *)
Theorem writer_truncates_then_completes (serialize : list element -> bytes)
    (gzip_rest : Z -> bytes -> bytes) (urls : list string) (now : datetime)
    (net : network) (mtime : Z) (fs : filesystem) :
  let r := main_on serialize gzip_rest urls now net mtime fs in
  (fs_trace r = [] /\ ending r <> Returned /\ ending r <> SystemExit 0)
  \/ (exists data,
        fs_trace r = [ <[OUTPUT_NAME := []]> fs; <[OUTPUT_NAME := data]> fs ]
        /\ final_fs fs r !! OUTPUT_NAME = Some data
        /\ ((ending r = SystemExit 0 /\ fs !! PREVIOUS_DIST = Some data)
            \/ (ending r = Returned
                /\ exists ws we st,
                     dt_add now (- timedelta_days KEEP_PAST_DAYS) = Ok ws
                     /\ dt_add now (timedelta_days KEEP_FUTURE_DAYS) = Ok we
                     /\ snd (main_loop net ws we urls initial_state) = Ok st
                     /\ total_failure st = false
                     /\ data = gzip_member gzip_rest mtime
                                 (serialize (tv_root st))))).
Proof.
  intros r. subst r. unfold main_on.
  destruct (dt_add now (- timedelta_days KEEP_PAST_DAYS)) as [ws|e] eqn:Hws;
    [|by left].
  destruct (dt_add now (timedelta_days KEEP_FUTURE_DAYS)) as [we|e] eqn:Hwe;
    [|by left].
  destruct (main_loop net ws we urls initial_state) as [evs [st|e]] eqn:Hrun;
    [|by left].
  destruct (total_failure st) eqn:Hguard.
  - unfold fallback_to_previous.
    destruct (fs !! PREVIOUS_DIST) as [previous|] eqn:Hprev; [|by left].
    right. exists previous. unfold final_fs. simpl.
    rewrite lookup_insert_eq. auto.
  - right. eexists. unfold final_fs. simpl. rewrite lookup_insert_eq.
    split; [done|]. split; [done|]. right. split; [done|].
    exists ws, we, st. by rewrite Hrun.
Qed.

(** ** Determinism *)

Lemma fetched_docs_same (net1 net2 : network) (urls : list string) :
  same_fetch_outcomes net1 net2 urls ->
  fetched_docs net1 urls = fetched_docs net2 urls.
Proof.
  unfold same_fetch_outcomes.
  induction urls as [|url urls IH]; intros Hsame; simpl; [done|].
  rewrite (Hsame url) by (by left).
  rewrite IH by (intros u Hu; apply Hsame; by right). done.
Qed.

(** C10, as stated, fails: with the same instant and the same fetch
    outcomes (every source down), the exit status is 1 without a previous
    artifact and 0 with one. *)
Lemma exit_status_depends_on_previous_artifact :
  same_fetch_outcomes sample_net sample_net ["down"]%string
  /\ exit_status (ending (main_on sample_serialize sample_gzip_rest
                            ["down"]%string sample_now sample_net 0 ∅))
     <> exit_status (ending (main_on sample_serialize sample_gzip_rest
                               ["down"]%string sample_now sample_net 0
                               {[ PREVIOUS_DIST := sample_previous ]})).
Proof.
  split; [done|]. vm_compute. discriminate.
Qed.

(** C10, amended. Two runs at the same instant whose fetches end the same
    way for every source build the same unified document, with the same
    elements in the same order, or stop on the same exception, whatever the
    attempts, the clock of the writer and the filesystem; when in addition
    the previous artifact exists in both runs or in neither, they end the
    same way, with the same exit status. *)
Theorem merge_deterministic (serialize : list element -> bytes)
    (gzip_rest : Z -> bytes -> bytes) (urls : list string) (now : datetime)
    (net1 net2 : network) (mtime1 mtime2 : Z) (fs1 fs2 : filesystem) :
  same_fetch_outcomes net1 net2 urls ->
  let r1 := main_on serialize gzip_rest urls now net1 mtime1 fs1 in
  let r2 := main_on serialize gzip_rest urls now net2 mtime2 fs2 in
  (forall ws we,
      snd (main_loop net1 ws we urls initial_state)
      = snd (main_loop net2 ws we urls initial_state))
  /\ ((is_Some (fs1 !! PREVIOUS_DIST) <-> is_Some (fs2 !! PREVIOUS_DIST)) ->
      ending r1 = ending r2
      /\ exit_status (ending r1) = exit_status (ending r2)).
Proof.
  intros Hsame r1 r2.
  assert (Hloop : forall ws we,
    snd (main_loop net1 ws we urls initial_state)
    = snd (main_loop net2 ws we urls initial_state)).
  { intros ws we. by rewrite !main_loop_merge_docs, (fetched_docs_same net1 net2). }
  split; [done|].
  intros Hprev.
  assert (Hend : ending r1 = ending r2); [|by rewrite Hend].
  subst r1 r2. unfold main_on.
  destruct (dt_add now (- timedelta_days KEEP_PAST_DAYS)) as [ws|e]; [|done].
  destruct (dt_add now (timedelta_days KEEP_FUTURE_DAYS)) as [we|e]; [|done].
  specialize (Hloop ws we).
  destruct (main_loop net1 ws we urls initial_state) as [evs1 res1].
  destruct (main_loop net2 ws we urls initial_state) as [evs2 res2].
  simpl in Hloop. subst res2.
  destruct res1 as [st|e]; [|done].
  destruct (total_failure st); [|done].
  unfold fallback_to_previous.
  destruct (fs1 !! PREVIOUS_DIST) as [p1|], (fs2 !! PREVIOUS_DIST) as [p2|];
    simpl; try done.
  - destruct Hprev as [Hprev _]. by destruct Hprev.
  - destruct Hprev as [_ Hprev]. by destruct Hprev.
Qed.

Lemma merge_deterministic_witness :
  ending (main_on sample_serialize sample_gzip_rest sample_urls sample_now
            sample_net 0 ∅)
  = ending (main_on sample_serialize sample_gzip_rest sample_urls sample_now
              sample_net_quick 1704110400 {[ OUTPUT_NAME := sample_previous ]}).
Proof.
  refine (proj1 (proj2
    (merge_deterministic sample_serialize sample_gzip_rest sample_urls
       sample_now sample_net sample_net_quick 0 1704110400 ∅
       {[ OUTPUT_NAME := sample_previous ]} _) _)).
  - intros url [<-|[<-|[<-|[]]]]; vm_compute; reflexivity.
  - split; intros [x Hx]; vm_compute in Hx; discriminate.
Defined.

(** * Further properties *)

(** ** The parser: what it returns and what it ignores *)

Lemma append_cons (c : ascii) (a b : string) :
  String c a +:+ b = String c (a +:+ b).
Proof. reflexivity. Qed.

Lemma append_nil_l (b : string) : EmptyString +:+ b = b.
Proof. reflexivity. Qed.

Lemma append_assoc (a b c : string) : (a +:+ b) +:+ c = a +:+ b +:+ c.
Proof.
  induction a as [|x a IH]; [done|]. by rewrite !append_cons, IH.
Qed.

Lemma take_digits_spec (n : nat) (ts g rest : string) :
  take_digits n ts = Some (g, rest)
  <-> ts = g +:+ rest /\ String.length g = n /\ all_digits g = true.
Proof.
  revert ts g rest. induction n as [|n IH]; intros ts g rest; cbn [take_digits].
  - split.
    + intros Heq. injection Heq as <- <-. done.
    + intros (-> & Hlen & _). destruct g; [done|discriminate].
  - destruct ts as [|c ts].
    + split; [done|]. intros (Heq & Hlen & _).
      destruct g; [discriminate|]. rewrite append_cons in Heq. discriminate.
    + destruct (is_digit c) eqn:Hc.
      * destruct (take_digits n ts) as [[d r]|] eqn:Ht.
        -- apply IH in Ht as (-> & Hlen & Hd). split.
           ++ intros Heq. injection Heq as <- <-. rewrite append_cons.
              cbn [String.length all_digits]. rewrite Hc, Hd, Hlen. done.
           ++ intros (Heq & Hlen' & Hd'). destruct g as [|c' g]; [discriminate|].
              rewrite append_cons in Heq. injection Heq as <- Heq.
              cbn [String.length all_digits] in Hlen', Hd'.
              apply andb_true_iff in Hd' as [_ Hd'].
              assert (Ht' : take_digits n (d +:+ r) = Some (g, rest)).
              { apply IH. split; [done|]. split; [lia|done]. }
              assert (Ht'' : take_digits n (d +:+ r) = Some (d, r))
                by (by apply IH).
              rewrite Ht'' in Ht'. by injection Ht' as <- <-.
        -- split; [done|]. intros (Heq & Hlen & Hd).
           destruct g as [|c' g]; [discriminate|].
           rewrite append_cons in Heq. injection Heq as <- ->.
           cbn [String.length all_digits] in Hlen, Hd.
           apply andb_true_iff in Hd as [_ Hd].
           assert (Ht' : take_digits n (g +:+ rest) = Some (g, rest)).
           { apply IH. split; [done|]. split; [lia|done]. }
           by rewrite Ht' in Ht.
      * split; [done|]. intros (Heq & Hlen & Hd).
        destruct g as [|c' g]; [discriminate|].
        rewrite append_cons in Heq. injection Heq as <- ->.
        cbn [all_digits] in Hd. rewrite Hc in Hd. discriminate.
Qed.

Lemma take_digits_None (n : nat) (ts : string) :
  take_digits n ts = None <-> ~ has_digit_prefix n ts.
Proof.
  unfold has_digit_prefix. split.
  - intros Hno (g & rest & Hp). apply take_digits_spec in Hp. congruence.
  - intros Hno. destruct (take_digits n ts) as [[g rest]|] eqn:Ht; [|done].
    destruct Hno. exists g, rest. by apply take_digits_spec.
Qed.

(** X1. The parser answers "absent" exactly for the strings that do not
    start with fourteen digits; on the others it returns an instant or
    raises, and the only exceptions it raises are [ValueError] and
    [OverflowError]. *)
Theorem parse_xmltv_time_outcomes (ts : string) :
  (parse_xmltv_time ts = Ok None <-> ~ has_digit_prefix 14 ts)
  /\ (forall e, parse_xmltv_time ts = Raise e ->
        has_digit_prefix 14 ts /\ (e = ValueError \/ e = OverflowError)).
Proof.
  destruct (take_digits 14 ts) as [[g rest]|] eqn:Ht.
  - assert (Hp : has_digit_prefix 14 ts).
    { exists g, rest. by apply take_digits_spec. }
    assert (Hcases : (exists t, parse_xmltv_time ts = Ok (Some t))
                     \/ parse_xmltv_time ts = Raise ValueError
                     \/ parse_xmltv_time ts = Raise OverflowError).
    { unfold parse_xmltv_time, re_match. rewrite Ht.
      destruct (String.eqb ts EmptyString) eqn:Hempty.
      { apply String.eqb_eq in Hempty. subst ts. discriminate. }
      unfold strptime.
      match goal with |- context [if ?b then Ok ?v else Raise ValueError] =>
        destruct b; cbn [rbind]; [|by right; left] end.
      destruct (match_tz (skip_spaces rest)) as [tz|]; [|by left; eexists].
      destruct (negb (String.eqb tz "Z")); [|by left; eexists].
      unfold timezone.
      match goal with |- context [if ?b then Ok ?v else Raise ValueError] =>
        destruct b; cbn [rbind]; [|by right; left] end.
      unfold astimezone_utc, dt_add.
      match goal with |- context [if ?b then Ok ?v else Raise OverflowError] =>
        destruct b; cbn [rbind]; [by left; eexists|by right; right] end. }
    split.
    + split; [|done]. intros Hnone.
      destruct Hcases as [[t Ht']|[Hr|Hr]]; congruence.
    + intros e He. split; [done|].
      destruct Hcases as [[t Ht']|[Hr|Hr]]; rewrite He in *;
        [discriminate | injection Hr as -> | injection Hr as ->]; auto.
  - rewrite (parse_xmltv_time_unmatched ts Ht).
    apply take_digits_None in Ht. split; [done|]. discriminate.
Qed.

(** The parser looks at the fourteen digits and at the zone that follows
    them, and at nothing else. *)
Lemma parse_by_groups (ts1 ts2 g r1 r2 : string) :
  take_digits 14 ts1 = Some (g, r1) ->
  take_digits 14 ts2 = Some (g, r2) ->
  match_tz (skip_spaces r1) = match_tz (skip_spaces r2) ->
  parse_xmltv_time ts1 = parse_xmltv_time ts2.
Proof.
  intros H1 H2 Htz. unfold parse_xmltv_time, re_match. rewrite H1, H2, Htz.
  assert (Hne : forall ts r, take_digits 14 ts = Some (g, r) ->
                             String.eqb ts EmptyString = false).
  { intros ts r Ht. apply not_true_iff_false. intros Heq.
    apply String.eqb_eq in Heq. subst ts. discriminate. }
  by rewrite (Hne ts1 r1), (Hne ts2 r2).
Qed.

Lemma match_tz_is_tz (z rest : string) :
  is_tz z -> match_tz (skip_spaces (z +:+ rest)) = Some z.
Proof.
  intros [->|(c & d & -> & Hc & Hlen & Hd)].
  - reflexivity.
  - rewrite append_cons.
    assert (Ht : take_digits 4 (d +:+ rest) = Some (d, rest))
      by (by apply take_digits_spec).
    destruct Hc as [-> | ->]; cbn [skip_spaces];
      (replace (is_space _) with false by (vm_compute; reflexivity));
      cbn [match_tz]; rewrite Ht; reflexivity.
Qed.

Lemma match_tz_other (c : ascii) (r : string) :
  is_space c = false -> c <> "Z"%char -> c <> "+"%char -> c <> "-"%char ->
  match_tz (skip_spaces (String c r)) = None.
Proof.
  intros Hs HZ Hp Hm. cbn [skip_spaces]. rewrite Hs. cbn [match_tz].
  rewrite (proj2 (Ascii.eqb_neq c "Z") HZ), (proj2 (Ascii.eqb_neq c "+") Hp),
    (proj2 (Ascii.eqb_neq c "-") Hm). done.
Qed.

(** X2. Whatever follows the zone is ignored, and so is whatever follows
    the fourteen digits when it is not a zone: after optional white space,
    a character other than [Z], [+] and [-], a fifteenth digit for
    instance. *)
Theorem parse_ignores_trailing (g w z rest : string) :
  String.length g = 14%nat -> all_digits g = true -> is_blank w = true ->
  (is_tz z ->
   parse_xmltv_time ((g +:+ w +:+ z) +:+ rest) = parse_xmltv_time (g +:+ w +:+ z))
  /\ (forall c r, is_space c = false ->
        c <> "Z"%char -> c <> "+"%char -> c <> "-"%char ->
        parse_xmltv_time (g +:+ w +:+ String c r) = parse_xmltv_time g).
Proof.
  intros Hlen Hd Hw.
  assert (Ht : forall x, take_digits 14 (g +:+ x) = Some (g, x))
    by (intros x; by apply take_digits_spec).
  assert (Hnil : forall x, x +:+ EmptyString = x).
  { induction x as [|a x IH]; [done|]. by rewrite append_cons, IH. }
  split.
  - intros Hz. rewrite !append_assoc.
    apply (parse_by_groups _ _ g (w +:+ z +:+ rest) (w +:+ z)); [done..|].
    rewrite (skip_spaces_blank w (z +:+ rest) Hw), (skip_spaces_blank w z Hw).
    rewrite (match_tz_is_tz z rest Hz).
    pose proof (match_tz_is_tz z EmptyString Hz) as Hz0.
    rewrite Hnil in Hz0. by rewrite Hz0.
  - intros c r Hs HZ Hp Hm.
    apply (parse_by_groups _ _ g (w +:+ String c r) EmptyString); [done| |].
    + specialize (Ht EmptyString). by rewrite Hnil in Ht.
    + rewrite skip_spaces_blank by done. by rewrite match_tz_other.
Qed.

Lemma parse_ignores_trailing_witness :
  parse_xmltv_time (("20240101120000" +:+ " " +:+ "+0200") +:+ " (CET)")
  = parse_xmltv_time ("20240101120000" +:+ " " +:+ "+0200").
Proof.
  refine (proj1 (parse_ignores_trailing "20240101120000" " " "+0200" " (CET)"
                   _ _ _) _); try reflexivity.
  right. exists "+"%char, "0200"%string. repeat split; auto.
Defined.

(** ** The window test *)

(** X3. For a programme that starts no later than it stops, and a window
    that starts no later than it ends, the test holds exactly when some
    instant lies both in the programme and in the window. *)
Theorem intersects_window_is_overlap (start stop win_start win_end : datetime) :
  start <= stop -> win_start <= win_end ->
  intersects_window (Some start) (Some stop) win_start win_end = true
  <-> exists t, start <= t <= stop /\ win_start <= t <= win_end.
Proof.
  intros Hp Hw. simpl. rewrite andb_true_iff, !Z.leb_le. split.
  - intros [Hs He]. exists (Z.max start win_start). lia.
  - intros (t & Ht1 & Ht2). lia.
Qed.

Lemma intersects_window_is_overlap_witness :
  intersects_window (Some (utc 2024 1 1 12 0 0)) (Some (utc 2024 1 1 13 0 0))
    sample_win_start sample_win_end = true
  <-> exists t, utc 2024 1 1 12 0 0 <= t <= utc 2024 1 1 13 0 0
                /\ sample_win_start <= t <= sample_win_end.
Proof.
  apply intersects_window_is_overlap; vm_compute; discriminate.
Defined.

(** X4. A programme kept by a window is kept by every window that
    contains it. *)
Theorem intersects_window_monotone (start_dt stop_dt : option datetime)
    (win_start win_end win_start' win_end' : datetime) :
  win_start' <= win_start -> win_end <= win_end' ->
  intersects_window start_dt stop_dt win_start win_end = true ->
  intersects_window start_dt stop_dt win_start' win_end' = true.
Proof.
  intros Hs He. destruct start_dt as [start|], stop_dt as [stop|]; simpl;
    rewrite ?andb_true_iff, ?Z.leb_le; lia.
Qed.

Lemma intersects_window_monotone_witness :
  intersects_window (Some 5) None 0 20 = true.
Proof.
  apply (intersects_window_monotone (Some 5) None 1 10 0 20); [lia|lia|].
  reflexivity.
Defined.

(** X5. The window of a run is the nine days from two days before [now] to
    seven days after it, and a programme on the air at [now], as far as its
    timestamps tell, passes the test. *)
Theorem on_air_is_kept (now win_start win_end : datetime)
    (start_dt stop_dt : option datetime) :
  dt_add now (- timedelta_days KEEP_PAST_DAYS) = Ok win_start ->
  dt_add now (timedelta_days KEEP_FUTURE_DAYS) = Ok win_end ->
  (forall start, start_dt = Some start -> start <= now) ->
  (forall stop, stop_dt = Some stop -> now <= stop) ->
  win_end - win_start = timedelta_days 9
  /\ win_start <= now <= win_end
  /\ intersects_window start_dt stop_dt win_start win_end = true.
Proof.
  unfold dt_add. intros Hws Hwe Hstart Hstop.
  destruct (_ && _) in Hws; [|discriminate]. injection Hws as <-.
  destruct (_ && _) in Hwe; [|discriminate]. injection Hwe as <-.
  unfold timedelta_days, KEEP_PAST_DAYS, KEEP_FUTURE_DAYS, US_PER_DAY,
    US_PER_SECOND.
  split; [lia|]. split; [lia|].
  destruct start_dt as [start|], stop_dt as [stop|]; simpl;
    rewrite ?andb_true_iff, ?Z.leb_le;
    try specialize (Hstart _ eq_refl); try specialize (Hstop _ eq_refl); lia.
Qed.

Lemma on_air_is_kept_witness :
  sample_win_end - sample_win_start = timedelta_days 9
  /\ sample_win_start <= sample_now <= sample_win_end
  /\ intersects_window (Some (utc 2024 1 1 11 0 0)) None
       sample_win_start sample_win_end = true.
Proof.
  apply (on_air_is_kept sample_now sample_win_start sample_win_end
           (Some (utc 2024 1 1 11 0 0)) None).
  - vm_compute. reflexivity.
  - vm_compute. reflexivity.
  - intros start Hs. injection Hs as <-. vm_compute. discriminate.
  - discriminate.
Defined.

(** ** The retry loop, for any number of retries *)

Lemma fetch_loop_exhausted (net : network) (url : string) (n a : nat)
    (last : option exn) :
  (forall j, (a <= j < a + n)%nat -> exists e, net url j = Raise e) ->
  gets (fst (fetch_loop net url a n last)) = n
  /\ slept (fst (fetch_loop net url a n last))
     = Z.of_nat n * (2 * Z.of_nat a + Z.of_nat n - 1)
  /\ (n = 0%nat ->
      snd (fetch_loop net url a n last)
      = Raise (match last with Some e => e | None => TypeError end))
  /\ (forall e, (0 < n)%nat -> net url (a + n - 1)%nat = Raise e ->
        snd (fetch_loop net url a n last) = Raise e).
Proof.
  revert a last. induction n as [|n IH]; intros a last Hfail.
  - simpl. repeat split; try done; lia.
  - destruct (Hfail a) as [e0 He0]; [lia|].
    cbn [fetch_loop]. rewrite He0.
    specialize (IH (S a) (Some e0)).
    destruct IH as (Hg & Hs & Hz & Hl); [intros j Hj; apply Hfail; lia|].
    destruct (fetch_loop net url (S a) n (Some e0)) as [evs r].
    cbn [fst snd] in *. unfold gets in *. cbn [List.filter is_get length slept].
    rewrite Hg, Hs. split; [done|]. split; [lia|]. split; [done|].
    intros e _ He. destruct n as [|n].
    + rewrite Hz by done. replace (a + 1 - 1)%nat with a in He by lia.
      congruence.
    + apply Hl; [lia|]. by replace (S a + S n - 1)%nat with (a + S (S n) - 1)%nat
        by lia.
Qed.

Lemma fetch_loop_first_success (net : network) (url : string) (i n a : nat)
    (last : option exn) (doc : element) :
  (i < n)%nat ->
  (forall j, (a <= j < a + i)%nat -> exists e, net url j = Raise e) ->
  net url (a + i)%nat = Ok doc ->
  snd (fetch_loop net url a n last) = Ok doc
  /\ gets (fst (fetch_loop net url a n last)) = S i
  /\ slept (fst (fetch_loop net url a n last))
     = Z.of_nat i * (2 * Z.of_nat a + Z.of_nat i - 1)
  /\ List.last (fst (fetch_loop net url a n last)) (EvSleep 0) = EvGet url.
Proof.
  revert n a last. induction i as [|i IH]; intros n a last Hlt Hfail Hok.
  - destruct n as [|n]; [lia|]. cbn [fetch_loop].
    replace (a + 0)%nat with a in Hok by lia. rewrite Hok. simpl.
    repeat split; lia.
  - destruct n as [|n]; [lia|]. cbn [fetch_loop].
    destruct (Hfail a) as [e0 He0]; [lia|]. rewrite He0.
    specialize (IH n (S a) (Some e0)).
    destruct IH as (Hr & Hg & Hs & Hl);
      [lia | intros j Hj; apply Hfail; lia
       | by replace (S a + i)%nat with (a + S i)%nat by lia |].
    destruct (fetch_loop net url (S a) n (Some e0)) as [evs r].
    cbn [fst snd] in *. unfold gets in *. cbn [List.filter is_get length slept].
    rewrite Hg, Hs. split; [done|]. split; [done|]. split; [nia|].
    destruct evs as [|ev evs]; [discriminate|]. done.
Qed.

(** X6. Whatever the number of retries, when attempt [k] is the first to
    succeed [fetch_xml] returns its document after [k] requests, having
    slept [2 + 4 + ... + 2 (k - 1) = k (k - 1)] seconds, and it does not
    sleep after the request that succeeded. *)
Theorem fetch_xml_first_success (net : network) (url : string)
    (retries k : nat) (doc : element) :
  (1 <= k <= retries)%nat ->
  (forall j, (1 <= j < k)%nat -> exists e, net url j = Raise e) ->
  net url k = Ok doc ->
  snd (fetch_xml net url retries) = Ok doc
  /\ gets (fst (fetch_xml net url retries)) = k
  /\ slept (fst (fetch_xml net url retries)) = Z.of_nat k * (Z.of_nat k - 1)
  /\ List.last (fst (fetch_xml net url retries)) (EvSleep 0) = EvGet url.
Proof.
  intros Hk Hfail Hok. unfold fetch_xml.
  destruct (fetch_loop_first_success net url (k - 1) retries 1 None doc)
    as (Hr & Hg & Hs & Hl).
  - lia.
  - intros j Hj. apply Hfail. lia.
  - by replace (1 + (k - 1))%nat with k by lia.
  - rewrite Hr, Hg, Hs, Hl.
    replace (Z.of_nat (k - 1)) with (Z.of_nat k - 1) by lia.
    repeat split; try done; lia.
Qed.

Lemma fetch_xml_first_success_witness :
  snd (fetch_xml sample_net "b" 5) = Ok source_b
  /\ gets (fst (fetch_xml sample_net "b" 5)) = 3%nat
  /\ slept (fst (fetch_xml sample_net "b" 5)) = Z.of_nat 3 * (Z.of_nat 3 - 1)
  /\ List.last (fst (fetch_xml sample_net "b" 5)) (EvSleep 0) = EvGet "b".
Proof.
  apply (fetch_xml_first_success sample_net "b" 5 3 source_b).
  - lia.
  - intros j Hj. assert (j = 1 \/ j = 2)%nat as [-> | ->] by lia;
      eexists; reflexivity.
  - reflexivity.
Defined.

(** X7. When every attempt fails, [fetch_xml] makes [retries] requests,
    sleeps after each of them, [retries (retries + 1)] seconds in all, and
    raises the error of the last attempt; with no retry at all it makes no
    request and raises [TypeError], there being no error to raise. *)
Theorem fetch_xml_exhausted (net : network) (url : string) (retries : nat) :
  (forall j, (1 <= j <= retries)%nat -> exists e, net url j = Raise e) ->
  gets (fst (fetch_xml net url retries)) = retries
  /\ slept (fst (fetch_xml net url retries))
     = Z.of_nat retries * (Z.of_nat retries + 1)
  /\ (retries = 0%nat -> fetch_xml net url retries = ([], Raise TypeError))
  /\ (forall e, (0 < retries)%nat -> net url retries = Raise e ->
        snd (fetch_xml net url retries) = Raise e).
Proof.
  intros Hfail. unfold fetch_xml.
  destruct (fetch_loop_exhausted net url retries 1 None)
    as (Hg & Hs & Hz & Hl); [intros j Hj; apply Hfail; lia|].
  split; [done|]. split; [rewrite Hs; lia|]. split.
  - intros ->. reflexivity.
  - intros e Hpos He. apply Hl; [done|].
    by replace (1 + retries - 1)%nat with retries by lia.
Qed.

Lemma fetch_xml_exhausted_witness :
  gets (fst (fetch_xml sample_net "down" 4)) = 4%nat
  /\ slept (fst (fetch_xml sample_net "down" 4)) = Z.of_nat 4 * (Z.of_nat 4 + 1).
Proof.
  destruct (fetch_xml_exhausted sample_net "down" 4) as (Hg & Hs & _).
  - intros j Hj. unfold sample_net. simpl. eauto.
  - split; [exact Hg|exact Hs].
Defined.

(** ** The requests and the log of a run *)

Lemma gets_app (evs1 evs2 : list event) :
  gets (evs1 ++ evs2) = (gets evs1 + gets evs2)%nat.
Proof. unfold gets. by rewrite List.filter_app, length_app. Qed.

Lemma slept_app (evs1 evs2 : list event) :
  slept (evs1 ++ evs2) = slept evs1 + slept evs2.
Proof.
  induction evs1 as [|ev evs1 IH]; [done|].
  destruct ev; simpl; rewrite IH; lia.
Qed.

Lemma logged_app (evs1 evs2 : list event) :
  logged (evs1 ++ evs2) = logged evs1 ++ logged evs2.
Proof.
  induction evs1 as [|ev evs1 IH]; [done|].
  destruct ev; simpl; by rewrite IH.
Qed.

Lemma fetch_xml_trace_bounds (net : network) (url : string) :
  (1 <= gets (fst (fetch_xml net url 3)) <= 3)%nat
  /\ 0 <= slept (fst (fetch_xml net url 3)) <= 12
  /\ logged (fst (fetch_xml net url 3)) = [].
Proof.
  rewrite fetch_xml_cases. unfold gets.
  destruct (net url 1%nat); [simpl; repeat split; (lia || done)|].
  destruct (net url 2%nat); [simpl; repeat split; (lia || done)|].
  destruct (net url 3%nat); simpl; repeat split; (lia || done).
Qed.

(** X8. A run makes at least one and at most three requests per source it
    gets to, hence at most three times as many as there are sources, and
    sleeps at most twelve seconds per source, whether the loop completes or
    an exception ends it. *)
Theorem main_loop_request_bound (net : network) (win_start win_end : datetime)
    (urls : list string) (st : state) :
  (gets (fst (main_loop net win_start win_end urls st)) <= 3 * length urls)%nat
  /\ 0 <= slept (fst (main_loop net win_start win_end urls st))
     <= 12 * Z.of_nat (length urls)
  /\ (is_ok (snd (main_loop net win_start win_end urls st)) = true ->
      (length urls <= gets (fst (main_loop net win_start win_end urls st)))%nat).
Proof.
  revert st. induction urls as [|url urls IH]; intros st.
  - simpl. repeat split; try done; lia.
  - cbn [main_loop].
    pose proof (fetch_xml_trace_bounds net url) as (Hg & Hs & _).
    destruct (fetch_xml net url 3) as [evs [doc|e]]; cbn [fst] in Hg, Hs.
    + destruct (merge_source win_start win_end st doc) as [st1|e].
      * specialize (IH st1).
        destruct (main_loop net win_start win_end urls st1) as [evs' r].
        cbn [fst snd length] in *. rewrite gets_app, slept_app.
        destruct IH as (IHg & IHs & IHok).
        repeat split; try lia; intros Hok; specialize (IHok Hok); lia.
      * cbn [fst snd length is_ok]. repeat split; try lia; discriminate.
    + specialize (IH st).
      destruct (main_loop net win_start win_end urls st) as [evs' r].
      cbn [fst snd length] in *. rewrite gets_app, slept_app.
      change (EvLog url e :: evs') with ([EvLog url e] ++ evs').
      rewrite gets_app, slept_app. cbn.
      destruct IH as (IHg & IHs & IHok).
      repeat split; try lia; intros Hok; specialize (IHok Hok); lia.
Qed.

(** X9. In a run whose loop completes, the sources logged as failed are
    exactly those whose fetch failed, in source order, and every source is
    either counted in [sources_ok] or logged. *)
Theorem main_loop_log (net : network) (win_start win_end : datetime)
    (urls : list string) (st : state) :
  snd (main_loop net win_start win_end urls initial_state) = Ok st ->
  logged (fst (main_loop net win_start win_end urls initial_state))
  = List.filter (fun url => negb (is_ok (fetched net url))) urls
  /\ (sources_ok st
      + length (logged (fst (main_loop net win_start win_end urls
                               initial_state))))%nat
     = length urls.
Proof.
  intros Hrun.
  assert (Hlog : forall st0 st1,
    snd (main_loop net win_start win_end urls st0) = Ok st1 ->
    logged (fst (main_loop net win_start win_end urls st0))
    = List.filter (fun url => negb (is_ok (fetched net url))) urls).
  { clear st Hrun. induction urls as [|url urls IH]; intros st0 st1; [done|].
    cbn [main_loop List.filter]. unfold fetched.
    pose proof (fetch_xml_trace_bounds net url) as (_ & _ & Hl).
    destruct (fetch_xml net url 3) as [evs [doc|e]]; cbn [fst snd is_ok negb] in *.
    - destruct (merge_source win_start win_end st0 doc) as [st2|e];
        [|discriminate].
      specialize (IH st2 st1).
      destruct (main_loop net win_start win_end urls st2) as [evs' r].
      cbn [fst snd] in *. intros Hr. rewrite logged_app, Hl. by apply IH.
    - specialize (IH st0 st1).
      destruct (main_loop net win_start win_end urls st0) as [evs' r].
      cbn [fst snd] in *. intros Hr. rewrite logged_app, Hl. simpl.
      f_equal. by apply IH. }
  split; [by apply (Hlog _ st)|].
  rewrite (Hlog _ st Hrun).
  apply main_loop_spec in Hrun as (_ & _ & _ & _ & ->).
  clear. induction urls as [|url urls IH]; [done|].
  cbn [fetched_docs List.filter length].
  destruct (fetched net url); cbn [is_ok negb length]; lia.
Qed.

Lemma main_loop_log_witness :
  logged (fst (main_loop sample_net sample_win_start sample_win_end
                 sample_urls initial_state))
  = List.filter (fun url => negb (is_ok (fetched sample_net url))) sample_urls.
Proof.
  refine (proj1 (main_loop_log sample_net sample_win_start sample_win_end
                   sample_urls sample_state _)).
  apply ok_state_of. by_evaluation.
Defined.

(** ** The unified document: order, members, counts *)

Section FirstWinsMore.
Context {A K : Type} `{Countable K}.
Variable P : A -> bool.
Variable k : A -> K.

Lemma first_wins_sublist (before l : list A) :
  sublist (first_wins P k before l) l.
Proof.
  revert before. induction l as [|x l IH]; intros before; simpl.
  - constructor.
  - destruct (P x && negb (claimed_earlier P k before x)).
    + by apply sublist_skip.
    + by apply sublist_cons.
Qed.

(** Records that are all among the earlier ones add nothing. *)
Lemma first_wins_covered (before l : list A) :
  (forall x, In x l -> In x before) -> first_wins P k before l = [].
Proof.
  revert before. induction l as [|x l IH]; intros before Hcov; [done|].
  simpl.
  assert (Hrest : first_wins P k (before ++ [x]) l = []).
  { apply IH. intros y Hy. apply in_or_app. left. apply Hcov. by right. }
  rewrite Hrest. destruct (P x) eqn:HP; [|done]. simpl.
  assert (Hce : claimed_earlier P k before x = true).
  { unfold claimed_earlier. apply existsb_exists. exists x.
    split; [apply Hcov; by left|]. rewrite HP. by apply bool_decide_eq_true_2. }
  by rewrite Hce.
Qed.

Lemma claimed_covered (before l : list A) :
  (forall x, In x l -> In x before) ->
  claimed P k (before ++ l) = claimed P k before.
Proof.
  intros Hcov. rewrite claimed_app. unfold claimed.
  rewrite (comm_L (∪)). apply subseteq_union_1_L. intros key Hkey.
  apply elem_of_list_to_set, list_elem_of_In, in_map_iff in Hkey
    as (x & <- & Hx).
  apply filter_In in Hx as [Hx HP].
  apply elem_of_list_to_set, list_elem_of_In, in_map_iff.
  exists x. split; [done|]. apply filter_In. split; [by apply Hcov|done].
Qed.

(** When eligibility is a matter of the key alone, selecting the eligible
    records before or after removing duplicates comes to the same. *)
Lemma first_wins_filter_commute (before l : list A) :
  (forall x y, k x = k y -> P x = P y) ->
  first_wins P k before l
  = List.filter P (first_wins (fun _ => true) k before l).
Proof.
  intros Hkey. revert before. induction l as [|x l IH]; intros before; [done|].
  simpl. rewrite IH.
  assert (Hce : P x = true ->
                claimed_earlier (fun _ => true) k before x
                = claimed_earlier P k before x).
  { intros HP. unfold claimed_earlier. apply eq_true_iff_eq.
    rewrite !existsb_exists.
    split; intros (q & Hq & Hb); exists q; (split; [done|]);
      apply andb_true_iff in Hb as [_ E]; rewrite E;
      apply bool_decide_eq_true_1 in E; [by rewrite (Hkey q x E), HP|done]. }
  destruct (P x) eqn:HP; simpl.
  - rewrite (Hce eq_refl).
    destruct (claimed_earlier P k before x); simpl; [done|]. by rewrite HP.
  - destruct (claimed_earlier (fun _ => true) k before x); simpl; [done|].
    by rewrite HP.
Qed.
End FirstWinsMore.

Lemma merge_docs_tv_root (ws we : datetime) (docs : list element)
    (st st' : state) (bc bp : list element) :
  channel_ids_seen st = claimed has_id channel_id bc ->
  programme_keys_seen st = claimed (passes ws we) programme_key bp ->
  merge_docs ws we st docs = Ok st' ->
  tv_root st' = tv_root st ++ unified ws we bc bp docs.
Proof.
  revert st bc bp. induction docs as [|doc docs IH]; intros st bc bp Hc Hp.
  - simpl. intros Heq. injection Heq as <-. by rewrite app_nil_r.
  - simpl merge_docs.
    destruct (merge_source ws we st doc) as [st1|e] eqn:E1; cbn [rbind];
      [|discriminate].
    intros Hrest.
    pose proof (merge_source_spec ws we st st1 doc bc bp Hc Hp E1) as Hst1.
    apply (IH st1 (bc ++ findall doc "channel") (bp ++ findall doc "programme"))
      in Hrest; [| by rewrite Hst1 | by rewrite Hst1].
    rewrite Hrest, Hst1. cbn [tv_root unified]. by rewrite <- !app_assoc.
Qed.

Lemma add_programmes_completes (ws we : datetime) (prs : list element)
    (st : state) :
  (forall pr, In pr prs -> is_ok (in_window ws we pr) = true) ->
  is_ok (add_programmes ws we st prs) = true.
Proof.
  revert st. induction prs as [|pr prs IH]; intros st Hok; [done|].
  simpl. unfold add_programme at 1.
  specialize (Hok pr (or_introl eq_refl)) as Hpr.
  destruct (in_window ws we pr) as [b|e]; [|discriminate]. cbn [rbind].
  destruct (negb b); cbn [rbind]; [apply IH; intros q Hq; apply Hok; by right|].
  destruct (bool_decide _); cbn [rbind]; apply IH; intros q Hq; apply Hok;
    by right.
Qed.

Lemma merge_docs_completes (ws we : datetime) (docs : list element)
    (st : state) :
  (forall pr, In pr (all_programmes docs) -> is_ok (in_window ws we pr) = true) ->
  is_ok (merge_docs ws we st docs) = true.
Proof.
  revert st. induction docs as [|doc docs IH]; intros st Hok; [done|].
  simpl. unfold merge_source at 1.
  match goal with |- context [add_programmes ws we ?s ?l] =>
    pose proof (add_programmes_completes ws we l s) as Hdoc end.
  unfold all_programmes in Hok. simpl in Hok.
  destruct (add_programmes _ _ _ _) as [st1|e].
  - cbn [rbind]. apply IH. intros pr Hpr. apply Hok, in_or_app. by right.
  - discriminate Hdoc. intros pr Hpr. apply Hok, in_or_app. by left.
Qed.

Lemma merge_docs_app (ws we : datetime) (docs1 docs2 : list element)
    (st : state) :
  merge_docs ws we st (docs1 ++ docs2)
  = let* st1 := merge_docs ws we st docs1 in merge_docs ws we st1 docs2.
Proof.
  revert st. induction docs1 as [|doc docs1 IH]; intros st; [done|].
  simpl. destruct (merge_source ws we st doc); [apply IH|done].
Qed.

Lemma fetched_docs_app (net : network) (urls1 urls2 : list string) :
  fetched_docs net (urls1 ++ urls2)
  = fetched_docs net urls1 ++ fetched_docs net urls2.
Proof.
  induction urls1 as [|url urls1 IH]; [done|]. simpl.
  destruct (fetched net url); by rewrite IH.
Qed.

Lemma unified_In (ws we : datetime) (docs : list element)
    (bc bp : list element) (e : element) :
  In e (unified ws we bc bp docs) ->
  (In e (all_channels docs) /\ has_id e = true)
  \/ (In e (all_programmes docs) /\ passes ws we e = true).
Proof.
  revert bc bp. induction docs as [|doc docs IH]; intros bc bp; [done|].
  cbn [unified]. unfold all_channels, all_programmes. cbn [map concat].
  intros Hin. apply in_app_or in Hin as [Hin|Hin];
    [|apply in_app_or in Hin as [Hin|Hin]].
  - apply first_wins_In in Hin as [Hin HP]. left. split; [|done].
    apply in_or_app. by left.
  - apply first_wins_In in Hin as [Hin HP]. right. split; [|done].
    apply in_or_app. by left.
  - apply IH in Hin as [[Hin HP]|[Hin HP]]; [left|right]; (split; [|done]);
      apply in_or_app; by right.
Qed.

Lemma unified_covered (ws we : datetime) (docs : list element)
    (bc bp : list element) :
  (forall x, In x (all_channels docs) -> In x bc) ->
  (forall x, In x (all_programmes docs) -> In x bp) ->
  unified ws we bc bp docs = [].
Proof.
  revert bc bp. induction docs as [|doc docs IH]; intros bc bp Hc Hp; [done|].
  cbn [unified]. unfold all_channels, all_programmes in Hc, Hp.
  cbn [map concat] in Hc, Hp.
  rewrite !first_wins_covered, IH; try done.
  - intros x Hx. apply in_or_app. left. apply Hc, in_or_app. by right.
  - intros x Hx. apply in_or_app. left. apply Hp, in_or_app. by right.
  - intros x Hx. apply Hp, in_or_app. by left.
  - intros x Hx. apply Hc, in_or_app. by left.
Qed.

Lemma main_loop_tv_root (net : network) (ws we : datetime)
    (urls : list string) (st : state) :
  snd (main_loop net ws we urls initial_state) = Ok st ->
  tv_root st = unified ws we [] [] (fetched_docs net urls).
Proof.
  rewrite main_loop_merge_docs. intros Hrun.
  by apply (merge_docs_tv_root _ _ _ _ _ [] []) in Hrun.
Qed.

Lemma main_loop_members (net : network) (ws we : datetime)
    (urls : list string) (st : state) (e : element) :
  snd (main_loop net ws we urls initial_state) = Ok st ->
  In e (tv_root st) ->
  (tag e = "channel"%string
   /\ In e (all_channels (fetched_docs net urls))
   /\ channel_id e <> EmptyString)
  \/ (tag e = "programme"%string
      /\ In e (all_programmes (fetched_docs net urls))
      /\ in_window ws we e = Ok true).
Proof.
  intros Hrun Hin.
  rewrite (main_loop_tv_root net ws we urls st Hrun) in Hin.
  rewrite main_loop_merge_docs in Hrun.
  apply unified_In in Hin as [[Hin HP]|[Hin HP]]; [left|right].
  - split; [|split; [done|]].
    + unfold all_channels in Hin. apply in_concat in Hin as (l & Hl & Hin).
      apply in_map_iff in Hl as (doc & <- & _). by apply findall_tag in Hin.
    + intros Hid. unfold has_id in HP. by rewrite Hid in HP.
  - split; [|split; [done|]].
    + unfold all_programmes in Hin. apply in_concat in Hin as (l & Hl & Hin).
      apply in_map_iff in Hl as (doc & <- & _). by apply findall_tag in Hin.
    + rewrite (merge_docs_in_window _ _ _ _ _ _ Hrun Hin). by rewrite HP.
Qed.

(** X10. In a run whose loop completes, the unified document holds, source
    after source in source order, the channels the source adds and then
    the programmes it adds, whatever the order of the records inside the
    source. *)
Theorem unified_document_order (net : network) (win_start win_end : datetime)
    (urls : list string) (st : state) :
  snd (main_loop net win_start win_end urls initial_state) = Ok st ->
  tv_root st = unified win_start win_end [] [] (fetched_docs net urls).
Proof. apply main_loop_tv_root. Qed.

Lemma unified_document_order_witness :
  tv_root sample_state
  = unified sample_win_start sample_win_end [] []
      (fetched_docs sample_net sample_urls).
Proof.
  apply (unified_document_order sample_net sample_win_start sample_win_end
           sample_urls sample_state).
  apply ok_state_of. by_evaluation.
Defined.

(** X11. Every element of the unified document is a record of a fetched
    source: a channel record with a non-empty id, or a programme record on
    which the window test returned true. Nothing else of a source is
    copied. *)
Theorem unified_document_members (net : network) (win_start win_end : datetime)
    (urls : list string) (st : state) (e : element) :
  snd (main_loop net win_start win_end urls initial_state) = Ok st ->
  In e (tv_root st) ->
  (tag e = "channel"%string
   /\ In e (all_channels (fetched_docs net urls))
   /\ channel_id e <> EmptyString)
  \/ (tag e = "programme"%string
      /\ In e (all_programmes (fetched_docs net urls))
      /\ in_window win_start win_end e = Ok true).
Proof. apply main_loop_members. Qed.

Lemma unified_document_members_witness :
  (tag news_noon = "channel"%string
   /\ In news_noon (all_channels (fetched_docs sample_net sample_urls))
   /\ channel_id news_noon <> EmptyString)
  \/ (tag news_noon = "programme"%string
      /\ In news_noon (all_programmes (fetched_docs sample_net sample_urls))
      /\ in_window sample_win_start sample_win_end news_noon = Ok true).
Proof.
  apply (unified_document_members sample_net sample_win_start sample_win_end
           sample_urls sample_state news_noon).
  - apply ok_state_of. by_evaluation.
  - rewrite sample_state_unified. right. left. reflexivity.
Defined.

(** X12. The retained channels are a subsequence of the channel records of
    the fetched sources, and the retained programmes a subsequence of their
    programme records: the merge drops records, it never reorders records
    of one kind. *)
Theorem retained_keep_source_order (net : network) (win_start win_end : datetime)
    (urls : list string) (st : state) :
  snd (main_loop net win_start win_end urls initial_state) = Ok st ->
  sublist (out_channels st) (all_channels (fetched_docs net urls))
  /\ sublist (out_programmes st) (all_programmes (fetched_docs net urls)).
Proof.
  intros Hrun. apply main_loop_spec in Hrun as (-> & -> & _).
  split; apply first_wins_sublist.
Qed.

Lemma retained_keep_source_order_witness :
  sublist (out_channels sample_state)
    (all_channels (fetched_docs sample_net sample_urls))
  /\ sublist (out_programmes sample_state)
       (all_programmes (fetched_docs sample_net sample_urls)).
Proof.
  apply (retained_keep_source_order sample_net sample_win_start sample_win_end
           sample_urls sample_state).
  apply ok_state_of. by_evaluation.
Defined.

(** X13. Sources that deliver documents already delivered by earlier
    sources add nothing: with them appended to the source list the loop
    still completes, with the same unified document and the same seen sets;
    only the count of fetched sources grows. *)
Theorem repeated_sources_add_nothing (net : network)
    (win_start win_end : datetime) (urls urls2 : list string) (st : state) :
  snd (main_loop net win_start win_end urls initial_state) = Ok st ->
  (forall doc, In doc (fetched_docs net urls2) ->
               In doc (fetched_docs net urls)) ->
  exists st',
    snd (main_loop net win_start win_end (urls ++ urls2) initial_state) = Ok st'
    /\ tv_root st' = tv_root st
    /\ channel_ids_seen st' = channel_ids_seen st
    /\ programme_keys_seen st' = programme_keys_seen st
    /\ sources_ok st' = (sources_ok st + length (fetched_docs net urls2))%nat.
Proof.
  intros Hrun Hdup.
  pose proof (main_loop_spec _ _ _ _ _ Hrun) as (_ & _ & Hsc & Hsp & _).
  rewrite main_loop_merge_docs in Hrun.
  rewrite main_loop_merge_docs, fetched_docs_app, merge_docs_app, Hrun.
  cbn [rbind].
  set (docs := fetched_docs net urls) in *.
  set (docs2 := fetched_docs net urls2) in *.
  assert (Hc : forall x, In x (all_channels docs2) -> In x (all_channels docs)).
  { intros x Hx. unfold all_channels in *.
    apply in_concat in Hx as (l & Hl & Hx).
    apply in_map_iff in Hl as (doc & <- & Hdoc).
    apply in_concat. eexists. split; [|exact Hx].
    apply in_map_iff. exists doc. split; [done|]. by apply Hdup. }
  assert (Hp : forall x, In x (all_programmes docs2) ->
                         In x (all_programmes docs)).
  { intros x Hx. unfold all_programmes in *.
    apply in_concat in Hx as (l & Hl & Hx).
    apply in_map_iff in Hl as (doc & <- & Hdoc).
    apply in_concat. eexists. split; [|exact Hx].
    apply in_map_iff. exists doc. split; [done|]. by apply Hdup. }
  assert (Hok : is_ok (merge_docs win_start win_end st docs2) = true).
  { apply merge_docs_completes. intros pr Hpr. apply Hp in Hpr.
    by rewrite (merge_docs_in_window _ _ _ _ _ _ Hrun Hpr). }
  destruct (merge_docs win_start win_end st docs2) as [st'|e] eqn:Hrun2;
    [|discriminate].
  exists st'. split; [done|].
  pose proof (merge_docs_tv_root _ _ _ _ _ _ _ Hsc Hsp Hrun2) as Htv.
  pose proof (merge_docs_spec _ _ _ _ _ _ _ Hsc Hsp Hrun2)
    as (_ & _ & Hsc' & Hsp' & Hn).
  rewrite unified_covered in Htv by done. rewrite app_nil_r in Htv.
  rewrite Hsc', Hsp', Hsc, Hsp, !claimed_covered by done. done.
Qed.

Lemma repeated_sources_add_nothing_witness :
  exists st',
    snd (main_loop sample_net sample_win_start sample_win_end
           (sample_urls ++ ["a"; "a"]%string) initial_state) = Ok st'
    /\ tv_root st' = tv_root sample_state
    /\ channel_ids_seen st' = channel_ids_seen sample_state
    /\ programme_keys_seen st' = programme_keys_seen sample_state
    /\ sources_ok st'
       = (sources_ok sample_state
          + length (fetched_docs sample_net ["a"; "a"]%string))%nat.
Proof.
  apply (repeated_sources_add_nothing sample_net sample_win_start
           sample_win_end sample_urls ["a"; "a"]%string sample_state).
  - apply ok_state_of. by_evaluation.
  - intros doc [<-|[<-|[]]]; left; reflexivity.
Defined.

(** X14. The window test is a matter of the dedup key alone: records with
    the same key pass or fail together. Hence filtering before removing
    duplicates, as the loop does, retains what removing duplicates first
    and filtering afterwards would retain. *)
Theorem filter_and_dedup_commute (net : network) (win_start win_end : datetime)
    (urls : list string) (st : state) :
  snd (main_loop net win_start win_end urls initial_state) = Ok st ->
  (forall p q, programme_key p = programme_key q ->
               in_window win_start win_end p = in_window win_start win_end q)
  /\ out_programmes st
     = List.filter (passes win_start win_end)
         (first_wins (fun _ => true) programme_key []
            (all_programmes (fetched_docs net urls))).
Proof.
  intros Hrun. split; [apply in_window_by_key|].
  apply main_loop_spec in Hrun as (_ & -> & _).
  apply first_wins_filter_commute. intros p q Hkey.
  unfold passes. by rewrite (in_window_by_key _ _ p q Hkey).
Qed.

Lemma filter_and_dedup_commute_witness :
  out_programmes sample_state
  = List.filter (passes sample_win_start sample_win_end)
      (first_wins (fun _ => true) programme_key []
         (all_programmes (fetched_docs sample_net sample_urls))).
Proof.
  refine (proj2 (filter_and_dedup_commute sample_net sample_win_start
                   sample_win_end sample_urls sample_state _)).
  apply ok_state_of. by_evaluation.
Defined.

(** X15. The numbers of seen channel ids and of seen programme keys, which
    the run reports and the guard tests, are the numbers of channel and of
    programme elements in the unified document. *)
Theorem seen_counts_are_element_counts (net : network)
    (win_start win_end : datetime) (urls : list string) (st : state) :
  snd (main_loop net win_start win_end urls initial_state) = Ok st ->
  size (channel_ids_seen st) = length (out_channels st)
  /\ size (programme_keys_seen st) = length (out_programmes st)
  /\ length (tv_root st)
     = (size (channel_ids_seen st) + size (programme_keys_seen st))%nat.
Proof.
  intros Hrun.
  pose proof (main_loop_spec _ _ _ _ _ Hrun) as (Hoc & Hop & Hsc & Hsp & _).
  assert (Hc : size (channel_ids_seen st) = length (out_channels st)).
  { rewrite Hsc, Hoc, <- first_wins_keys_nil.
    rewrite size_list_to_set by apply first_wins_NoDup. apply length_map. }
  assert (Hp : size (programme_keys_seen st) = length (out_programmes st)).
  { rewrite Hsp, Hop, <- first_wins_keys_nil.
    rewrite size_list_to_set by apply first_wins_NoDup. apply length_map. }
  split; [done|]. split; [done|]. rewrite Hc, Hp.
  unfold out_channels, out_programmes.
  assert (Hkind : forall e, In e (tv_root st) ->
                            is_programme e = negb (is_channel e)).
  { intros e He.
    destruct (main_loop_members net win_start win_end urls st e Hrun He)
      as [(Ht & _)|(Ht & _)]; unfold is_programme, is_channel; by rewrite Ht. }
  clear -Hkind. induction (tv_root st) as [|e l IH]; [done|].
  cbn [List.filter length]. rewrite (Hkind e) by (by left).
  specialize (IH (fun x Hx => Hkind x (or_intror Hx))).
  destruct (is_channel e); cbn [negb length]; lia.
Qed.

Lemma seen_counts_are_element_counts_witness :
  size (channel_ids_seen sample_state) = length (out_channels sample_state)
  /\ size (programme_keys_seen sample_state)
     = length (out_programmes sample_state)
  /\ length (tv_root sample_state)
     = (size (channel_ids_seen sample_state)
        + size (programme_keys_seen sample_state))%nat.
Proof.
  apply (seen_counts_are_element_counts sample_net sample_win_start
           sample_win_end sample_urls sample_state).
  apply ok_state_of. by_evaluation.
Defined.

(** ** The dedup key of a programme *)

Lemma skip_spaces_all_blank (w : string) :
  is_blank w = true -> skip_spaces w = EmptyString.
Proof.
  induction w as [|c w IH]; [done|]. cbn [is_blank skip_spaces].
  intros Hb. apply andb_true_iff in Hb as [-> Hw]. by apply IH.
Qed.

Lemma rstrip_blank (w : string) : is_blank w = true -> rstrip w = EmptyString.
Proof.
  induction w as [|c w IH]; [done|]. cbn [is_blank rstrip].
  intros Hb. apply andb_true_iff in Hb as [-> Hw]. by rewrite IH.
Qed.

Lemma rstrip_app_blank (s w : string) :
  is_blank w = true -> rstrip (s +:+ w) = rstrip s.
Proof.
  intros Hw. induction s as [|c s IH]; [by apply rstrip_blank|].
  rewrite append_cons. cbn [rstrip]. by rewrite IH.
Qed.

Lemma strip_surrounded (w1 t w2 : string) :
  is_blank w1 = true -> is_blank w2 = true ->
  strip (w1 +:+ t +:+ w2) = strip t.
Proof.
  intros H1 H2. unfold strip. rewrite skip_spaces_blank by done.
  induction t as [|c t IH].
  - rewrite append_nil_l. by rewrite skip_spaces_all_blank.
  - rewrite append_cons. cbn [skip_spaces].
    destruct (is_space c); cbv iota; [done|].
    rewrite <- append_cons. by apply rstrip_app_blank.
Qed.

Lemma strip_idempotent (t : string) : strip (strip t) = strip t.
Proof.
  assert (Hr : forall s, rstrip (rstrip s) = rstrip s).
  { induction s as [|c s IH]; [done|]. cbn [rstrip].
    destruct (rstrip s) as [|c' s'] eqn:E.
    - destruct (is_space c) eqn:Hc; cbv iota; [done|]. cbn [rstrip].
      by rewrite Hc.
    - cbn [rstrip]. cbn [rstrip] in IH. by rewrite IH. }
  assert (Hhead : forall s, skip_spaces (rstrip (skip_spaces s))
                            = rstrip (skip_spaces s)).
  { induction s as [|c s IH]; [done|]. cbn [skip_spaces].
    destruct (is_space c) eqn:Hc; cbv iota; [exact IH|]. cbn [rstrip].
    destruct (rstrip s); rewrite ?Hc; cbn [skip_spaces]; by rewrite Hc. }
  unfold strip. by rewrite Hhead, Hr.
Qed.

(** X16. The title enters the dedup key trimmed: two programme records
    with the same channel, start and stop attributes (a missing attribute
    counting as an empty one) have the same key when their titles differ
    only by white space around them, and also when one has no title and
    the other a blank one; and trimming is idempotent. *)
Theorem programme_key_trims_title (pr pr' : element) :
  or_empty (get pr "channel") = or_empty (get pr' "channel") ->
  or_empty (get pr "start") = or_empty (get pr' "start") ->
  or_empty (get pr "stop") = or_empty (get pr' "stop") ->
  (forall w1 t w2, is_blank w1 = true -> is_blank w2 = true ->
      findtext pr "title" = Some (w1 +:+ t +:+ w2) ->
      findtext pr' "title" = Some t ->
      programme_key pr = programme_key pr')
  /\ (forall w, is_blank w = true ->
        findtext pr "title" = None -> findtext pr' "title" = Some w ->
        programme_key pr = programme_key pr')
  /\ (forall t, strip (strip t) = strip t).
Proof.
  intros Hc Hs He. unfold programme_key. rewrite Hc, Hs, He.
  split; [|split].
  - intros w1 t w2 H1 H2 Ht Ht'. rewrite Ht, Ht'. cbn [or_empty].
    by rewrite (strip_surrounded w1 t w2 H1 H2).
  - intros w Hw Ht Ht'. rewrite Ht, Ht'. cbn [or_empty]. unfold strip.
    by rewrite (skip_spaces_all_blank w Hw).
  - apply strip_idempotent.
Qed.

Lemma programme_key_trims_title_witness :
  programme_key news_noon = programme_key news_noon_again.
Proof.
  refine (proj1 (programme_key_trims_title news_noon news_noon_again _ _ _)
            " " "News" " " _ _ _ _); reflexivity.
Defined.

(** X17. A programme neither of whose start and stop attributes starts
    with fourteen digits (missing and empty attributes included) passes
    the window test whatever the window, and is appended unless its key
    has been seen. *)
Theorem programme_without_timestamps (pr : element)
    (win_start win_end : datetime) (st : state) :
  ~ has_digit_prefix 14 (or_empty (get pr "start")) ->
  ~ has_digit_prefix 14 (or_empty (get pr "stop")) ->
  in_window win_start win_end pr = Ok true
  /\ (programme_key pr ∉ programme_keys_seen st ->
      exists st', add_programme win_start win_end st pr = Ok st'
                  /\ tv_root st' = tv_root st ++ [pr]).
Proof.
  intros Hstart Hstop.
  assert (Hwin : in_window win_start win_end pr = Ok true).
  { unfold in_window.
    rewrite (parse_xmltv_time_unmatched _ (proj2 (take_digits_None _ _) Hstart)).
    rewrite (parse_xmltv_time_unmatched _ (proj2 (take_digits_None _ _) Hstop)).
    done. }
  split; [done|]. intros Hfresh. unfold add_programme. rewrite Hwin. cbn.
  rewrite (bool_decide_eq_false_2 _ Hfresh). eauto.
Qed.

Lemma programme_without_timestamps_witness :
  in_window 0 0 orphan = Ok true.
Proof.
  refine (proj1 (programme_without_timestamps orphan 0 0 initial_state _ _));
    apply take_digits_None; reflexivity.
Defined.

(** ** What a run does to the filesystem *)

Lemma write_file_frame (fs fs' : filesystem) (path other : string)
    (data : bytes) :
  In fs' (write_file fs path data) -> other <> path ->
  fs' !! other = fs !! other.
Proof.
  intros [<-|[<-|[]]] Hne; by rewrite lookup_insert_ne.
Qed.

(** X18. A run changes no path but the output path: in every state of the
    filesystem it produces, every other path, the previous artifact
    included, holds what it held before the run. *)
Theorem main_writes_only_output (serialize : list element -> bytes)
    (gzip_rest : Z -> bytes -> bytes) (urls : list string) (now : datetime)
    (net : network) (mtime : Z) (fs fs' : filesystem) (path : string) :
  In fs' (fs_trace (main_on serialize gzip_rest urls now net mtime fs)) ->
  path <> OUTPUT_NAME ->
  fs' !! path = fs !! path.
Proof.
  unfold main_on.
  destruct (dt_add now (- timedelta_days KEEP_PAST_DAYS)) as [ws|e]; [|done].
  destruct (dt_add now (timedelta_days KEEP_FUTURE_DAYS)) as [we|e]; [|done].
  destruct (main_loop net ws we urls initial_state) as [evs [st|e]]; [|done].
  destruct (total_failure st).
  - unfold fallback_to_previous.
    destruct (fs !! PREVIOUS_DIST) as [previous|]; [|done].
    apply write_file_frame.
  - apply write_file_frame.
Qed.

Lemma main_writes_only_output_witness :
  let fs : filesystem := {[ PREVIOUS_DIST := sample_previous ]} in
  (<[OUTPUT_NAME := []]> fs : filesystem) !! PREVIOUS_DIST = fs !! PREVIOUS_DIST.
Proof.
  intros fs.
  apply (main_writes_only_output sample_serialize sample_gzip_rest
           ["down"]%string sample_now sample_net 0 fs).
  - left. by_evaluation.
  - discriminate.
Defined.

(** ** A total outage *)

Lemma fetch_failed_trace (net : network) (url : string) (e : exn) :
  fetched net url = Raise e ->
  fst (fetch_xml net url 3)
  = [EvGet url; EvSleep 2; EvGet url; EvSleep 4; EvGet url; EvSleep 6].
Proof.
  unfold fetched. rewrite fetch_xml_cases.
  destruct (net url 1%nat); [discriminate|].
  destruct (net url 2%nat); [discriminate|].
  by destruct (net url 3%nat).
Qed.

Lemma main_loop_all_failed_trace (net : network) (ws we : datetime)
    (urls : list string) (st : state) :
  (forall url, In url urls -> exists e, fetched net url = Raise e) ->
  gets (fst (main_loop net ws we urls st)) = (3 * length urls)%nat
  /\ slept (fst (main_loop net ws we urls st)) = 12 * Z.of_nat (length urls)
  /\ logged (fst (main_loop net ws we urls st)) = urls.
Proof.
  induction urls as [|url urls IH]; intros Hdown; [done|].
  destruct (Hdown url) as [e He]; [by left|].
  rewrite (main_loop_skips_failed net ws we url urls st e He).
  rewrite (fetch_failed_trace net url e He). cbn [fst].
  destruct IH as (Hg & Hs & Hl); [intros u Hu; apply Hdown; by right|].
  unfold gets in *. cbn [app List.filter is_get length slept logged].
  rewrite Hg, Hs, Hl. repeat split; try done; lia.
Qed.

(** X19. When the fetch of every source fails, the run makes three
    requests and sleeps twelve seconds per source, logs every source, and
    takes the fallback path: with a previous artifact it exits with status
    0 and the output path ends up with its bytes, without one it exits
    with status 1 and writes nothing. *)
Theorem total_outage (serialize : list element -> bytes)
    (gzip_rest : Z -> bytes -> bytes) (urls : list string) (now : datetime)
    (net : network) (mtime : Z) (fs : filesystem) :
  in_range (now - timedelta_days KEEP_PAST_DAYS) ->
  in_range (now + timedelta_days KEEP_FUTURE_DAYS) ->
  (forall url, In url urls -> exists e, fetched net url = Raise e) ->
  let r := main_on serialize gzip_rest urls now net mtime fs in
  gets (events r) = (3 * length urls)%nat
  /\ slept (events r) = 12 * Z.of_nat (length urls)
  /\ logged (events r) = urls
  /\ (forall previous, fs !! PREVIOUS_DIST = Some previous ->
        ending r = SystemExit 0
        /\ final_fs fs r !! OUTPUT_NAME = Some previous)
  /\ (fs !! PREVIOUS_DIST = None ->
        ending r = SystemExit 1 /\ fs_trace r = []).
Proof.
  intros Hpast Hfuture Hdown r. unfold in_range in Hpast, Hfuture.
  assert (Hws : dt_add now (- timedelta_days KEEP_PAST_DAYS)
                = Ok (now - timedelta_days KEEP_PAST_DAYS)).
  { unfold dt_add.
    replace (now + - timedelta_days KEEP_PAST_DAYS)
      with (now - timedelta_days KEEP_PAST_DAYS) by lia.
    rewrite (proj2 (Z.leb_le _ _)) by lia.
    by rewrite (proj2 (Z.ltb_lt _ _)) by lia. }
  assert (Hwe : dt_add now (timedelta_days KEEP_FUTURE_DAYS)
                = Ok (now + timedelta_days KEEP_FUTURE_DAYS)).
  { unfold dt_add. rewrite (proj2 (Z.leb_le _ _)) by lia.
    by rewrite (proj2 (Z.ltb_lt _ _)) by lia. }
  pose proof (main_loop_all_failed net
                (now - timedelta_days KEEP_PAST_DAYS)
                (now + timedelta_days KEEP_FUTURE_DAYS) urls initial_state
                Hdown) as Hrun.
  pose proof (main_on_completed serialize gzip_rest urls now net mtime fs
                _ _ _ Hws Hwe Hrun) as [Hev Hr].
  fold r in Hev, Hr. change (total_failure initial_state) with true in Hr.
  rewrite Hev.
  pose proof (main_loop_all_failed_trace net
                (now - timedelta_days KEEP_PAST_DAYS)
                (now + timedelta_days KEEP_FUTURE_DAYS) urls initial_state
                Hdown) as (Hg & Hs & Hl).
  split; [done|]. split; [done|]. split; [done|].
  unfold fallback_to_previous in Hr. split.
  - intros previous Hprev. rewrite Hprev in Hr. injection Hr as Htr Hend.
    split; [done|]. unfold final_fs. rewrite Htr. simpl.
    by rewrite lookup_insert_eq.
  - intros Hnone. rewrite Hnone in Hr. by injection Hr as Htr Hend.
Qed.

Lemma total_outage_witness :
  let r := main_on sample_serialize sample_gzip_rest ["down"; "gone"]%string
             sample_now sample_net 0 ∅ in
  gets (events r) = (3 * 2)%nat /\ slept (events r) = 12 * Z.of_nat 2
  /\ ending r = SystemExit 1.
Proof.
  intros r.
  destruct (total_outage sample_serialize sample_gzip_rest
              ["down"; "gone"]%string sample_now sample_net 0 ∅)
    as (Hg & Hs & _ & _ & Hnone).
  - unfold in_range. vm_compute. split; [discriminate|reflexivity].
  - unfold in_range. vm_compute. split; [discriminate|reflexivity].
  - intros url [<-|[<-|[]]]; eexists; reflexivity.
  - destruct (Hnone eq_refl) as [Hend _]. split; [exact Hg|].
    split; [exact Hs|exact Hend].
Defined.

(** ** Fetching what a run wrote *)

Section Served.
Variable serialize : list element -> bytes.
Variable gzip_rest : Z -> bytes -> bytes.
Variable gzip_decompress : bytes -> result bytes.
Variable etree_parse : bytes -> result element.

End Served.


(** ** The instants the parser returns *)

Lemma days_before_year_bounds (y : Z) :
  1 <= y <= 9999 ->
  0 <= days_before_year y /\ days_before_year (y + 1) <= MAXORDINAL.
Proof.
  intros Hy. unfold days_before_year, MAXORDINAL. cbv zeta.
  replace (y + 1 - 1) with y by lia.
  split; Z.to_euclidean_division_equations; lia.
Qed.

Lemma days_before_year_step (y : Z) :
  1 <= y ->
  days_before_year (y + 1)
  = days_before_year y + 365 + (if is_leap y then 1 else 0).
Proof.
  intros Hy. unfold days_before_year, is_leap. cbv zeta.
  replace (y + 1 - 1) with y by lia.
  destruct (y mod 4 =? 0) eqn:E4; destruct (y mod 100 =? 0) eqn:E100;
    destruct (y mod 400 =? 0) eqn:E400; simpl;
    rewrite ?Z.eqb_eq, ?Z.eqb_neq in *;
    Z.to_euclidean_division_equations; lia.
Qed.

Lemma day_of_year_bounds (y m d : Z) :
  1 <= m <= 12 -> 1 <= d <= days_in_month y m ->
  1 <= days_before_month y m + d <= 365 + (if is_leap y then 1 else 0).
Proof.
  intros Hm Hd.
  assert (Htable : exists a b,
    days_before_month y m = a /\ days_in_month y m = b
    /\ 0 <= a /\ a + b <= 365 + (if is_leap y then 1 else 0)).
  { assert (Hc : In m [1; 2; 3; 4; 5; 6; 7; 8; 9; 10; 11; 12])
      by (simpl; lia).
    unfold days_before_month, days_in_month.
    destruct (is_leap y); simpl in Hc;
      repeat (destruct Hc as [Hc | Hc];
              [subst m; eexists; eexists;
               split; [vm_compute; reflexivity|];
               split; [vm_compute; reflexivity|]; lia|]);
      contradiction. }
  destruct Htable as (a & b & -> & Hb & Ha & Hab). lia.
Qed.

Lemma utc_in_range (y m d h mi s : Z) :
  valid_civil y m d h mi s -> in_range (utc y m d h mi s).
Proof.
  unfold valid_civil, MINYEAR, MAXYEAR.
  intros (Hy & Hm & Hd & Hh & Hmi & Hs).
  pose proof (days_before_year_bounds y Hy) as [Hlo Hhi].
  pose proof (days_before_year_step y (proj1 Hy)) as Hstep.
  pose proof (day_of_year_bounds y m d Hm Hd) as Hday.
  unfold in_range, utc, ymd2ord, US_PER_DAY, US_PER_SECOND. lia.
Qed.

Lemma int_acc_nonneg (s : string) (acc : Z) :
  all_digits s = true -> 0 <= acc -> 0 <= int_acc acc s.
Proof.
  revert acc. induction s as [|c s IH]; intros acc Hd Hacc; [done|].
  cbn [all_digits] in Hd. apply andb_true_iff in Hd as [Hc Hd].
  cbn [int_acc]. apply IH; [done|].
  unfold is_digit in Hc. apply andb_true_iff in Hc as [Hc _].
  apply Z.leb_le in Hc. unfold digit_value. lia.
Qed.

Lemma all_digits_substring (s : string) (i n : nat) :
  all_digits s = true -> all_digits (String.substring i n s) = true.
Proof.
  revert i n. induction s as [|c s IH]; intros i n Hd.
  - by destruct i, n.
  - cbn [all_digits] in Hd. apply andb_true_iff in Hd as [Hc Hd].
    destruct i as [|i]; [destruct n as [|n]|]; cbn [String.substring all_digits].
    + done.
    + rewrite Hc. by apply IH.
    + by apply IH.
Qed.

Lemma strptime_in_range (g : string) (base : datetime) :
  all_digits g = true -> strptime g = Ok base -> in_range base.
Proof.
  intros Hd. unfold strptime.
  match goal with |- context [if ?b then _ else _] => destruct b eqn:Hvalid end;
    [|discriminate].
  intros Heq. injection Heq as <-.
  repeat (apply andb_true_iff in Hvalid as [Hvalid ?]).
  rewrite ?Z.leb_le in *.
  assert (Hnn : forall i j, 0 <= int (slice i j g)).
  { intros i j. apply int_acc_nonneg; [|done]. by apply all_digits_substring. }
  apply utc_in_range. unfold valid_civil.
  pose proof (Hnn 8 10)%nat. pose proof (Hnn 10 12)%nat.
  pose proof (Hnn 12 14)%nat. repeat split; done.
Qed.

(** X21. Every instant the parser returns lies within the years 1 to 9999
    that a [datetime] can hold, with or without an offset. *)
Theorem parse_xmltv_time_in_range (ts : string) (t : datetime) :
  parse_xmltv_time ts = Ok (Some t) -> in_range t.
Proof.
  unfold parse_xmltv_time, re_match.
  destruct (String.eqb ts EmptyString); [discriminate|].
  destruct (take_digits 14 ts) as [[g rest]|] eqn:Ht; [|discriminate].
  apply take_digits_spec in Ht as (_ & _ & Hd).
  destruct (strptime g) as [base|e] eqn:Hbase; [|discriminate].
  pose proof (strptime_in_range g base Hd Hbase) as Hr. cbn [rbind].
  destruct (match_tz (skip_spaces rest)) as [tz|];
    [|intros Heq; by injection Heq as <-].
  destruct (negb (String.eqb tz "Z")); [|intros Heq; by injection Heq as <-].
  destruct (timezone _) as [offset|e]; [|discriminate]. cbn [rbind].
  unfold astimezone_utc, dt_add.
  destruct (_ && _) eqn:Hin; [|discriminate]. cbn [rbind].
  intros Heq. injection Heq as <-.
  apply andb_true_iff in Hin as [Hlo Hhi].
  apply Z.leb_le in Hlo. apply Z.ltb_lt in Hhi. by unfold in_range.
Qed.

Lemma parse_xmltv_time_in_range_witness :
  in_range (utc 2024 1 1 10 0 0).
Proof.
  apply (parse_xmltv_time_in_range "20240101120000+0200").
  vm_compute. reflexivity.
Defined.

(** ** When a run completes, and what earlier sources are owed *)

Lemma in_window_ok (ws we : datetime) (pr : element) :
  is_ok (in_window ws we pr) = true
  <-> is_ok (parse_xmltv_time (or_empty (get pr "start"))) = true
      /\ is_ok (parse_xmltv_time (or_empty (get pr "stop"))) = true.
Proof.
  unfold in_window.
  destruct (parse_xmltv_time (or_empty (get pr "start"))) as [start|e];
    destruct (parse_xmltv_time (or_empty (get pr "stop"))) as [stop|e'];
    simpl; intuition discriminate.
Qed.

(** X22. The merge loop completes exactly when the parser returns, rather
    than raises, on the start and on the stop attribute of every programme
    record of every fetched source: one record with fourteen digits that are
    no date, in any source, ends the run, whatever the window. *)
Theorem main_loop_completes_iff (net : network) (win_start win_end : datetime)
    (urls : list string) :
  is_ok (snd (main_loop net win_start win_end urls initial_state)) = true
  <-> forall pr, In pr (all_programmes (fetched_docs net urls)) ->
        is_ok (parse_xmltv_time (or_empty (get pr "start"))) = true
        /\ is_ok (parse_xmltv_time (or_empty (get pr "stop"))) = true.
Proof.
  rewrite main_loop_merge_docs. split.
  - intros Hok pr Hpr. apply (in_window_ok win_start win_end).
    destruct (merge_docs win_start win_end initial_state
                (fetched_docs net urls)) as [st|e] eqn:Hrun; [|discriminate].
    by rewrite (merge_docs_in_window _ _ _ _ _ _ Hrun Hpr).
  - intros Hall. apply merge_docs_completes. intros pr Hpr.
    apply in_window_ok. by apply Hall.
Qed.

(** X23. A run exits with status 0 exactly when it has written the output
    path, be it the merged document or the copy of the previous artifact;
    otherwise it exits with status 1 and has written nothing. *)
Theorem exit_status_tells_output (serialize : list element -> bytes)
    (gzip_rest : Z -> bytes -> bytes) (urls : list string) (now : datetime)
    (net : network) (mtime : Z) (fs : filesystem) :
  let r := main_on serialize gzip_rest urls now net mtime fs in
  (exit_status (ending r) = 0 /\ is_Some (final_fs fs r !! OUTPUT_NAME)
   /\ fs_trace r <> [])
  \/ (exit_status (ending r) = 1 /\ fs_trace r = [] /\ final_fs fs r = fs).
Proof.
  intros r. subst r. unfold main_on.
  destruct (dt_add now (- timedelta_days KEEP_PAST_DAYS)) as [ws|e];
    [|by right].
  destruct (dt_add now (timedelta_days KEEP_FUTURE_DAYS)) as [we|e];
    [|by right].
  destruct (main_loop net ws we urls initial_state) as [evs [st|e]];
    [|by right].
  destruct (total_failure st).
  - unfold fallback_to_previous.
    destruct (fs !! PREVIOUS_DIST) as [previous|]; [|by right].
    left. unfold final_fs. simpl. by rewrite lookup_insert_eq.
  - left. unfold final_fs. simpl. by rewrite lookup_insert_eq.
Qed.

(** X24. Earlier sources have precedence: when the loop completes on a
    source list extended at its end, it completes on the list itself, and
    the unified document of the list is a prefix of that of the extended
    list. Later sources only append. *)
Theorem later_sources_only_append (net : network)
    (win_start win_end : datetime) (urls urls2 : list string) (st' : state) :
  snd (main_loop net win_start win_end (urls ++ urls2) initial_state) = Ok st' ->
  exists st,
    snd (main_loop net win_start win_end urls initial_state) = Ok st
    /\ tv_root st `prefix_of` tv_root st'
    /\ channel_ids_seen st ⊆ channel_ids_seen st'
    /\ programme_keys_seen st ⊆ programme_keys_seen st'.
Proof.
  rewrite !main_loop_merge_docs, fetched_docs_app, merge_docs_app.
  destruct (merge_docs win_start win_end initial_state (fetched_docs net urls))
    as [st|e] eqn:Hrun; [|discriminate].
  cbn [rbind]. intros Hrun2. exists st. split; [done|].
  pose proof (merge_docs_spec win_start win_end _ initial_state st [] []
                ltac:(done) ltac:(done) Hrun) as (_ & _ & Hsc & Hsp & _).
  simpl in Hsc, Hsp.
  pose proof (merge_docs_tv_root _ _ _ _ _ _ _ Hsc Hsp Hrun2) as Htv.
  pose proof (merge_docs_spec _ _ _ _ _ _ _ Hsc Hsp Hrun2)
    as (_ & _ & Hsc' & Hsp' & _).
  split; [rewrite Htv; by eexists|].
  rewrite Hsc', Hsp', Hsc, Hsp, !claimed_app. set_solver.
Qed.

Lemma later_sources_only_append_witness :
  exists st,
    snd (main_loop sample_net sample_win_start sample_win_end
           ["a"; "down"]%string initial_state) = Ok st
    /\ tv_root st `prefix_of` tv_root sample_state
    /\ channel_ids_seen st ⊆ channel_ids_seen sample_state
    /\ programme_keys_seen st ⊆ programme_keys_seen sample_state.
Proof.
  apply (later_sources_only_append sample_net sample_win_start sample_win_end
           ["a"; "down"]%string ["b"]%string sample_state).
  apply ok_state_of. by_evaluation.
Defined.

(** X25. A source whose fetch fails is as good as not listed: the loop
    ends in the same state, or on the same exception, as without it. *)
Theorem failed_source_is_skipped (net : network) (win_start win_end : datetime)
    (urls1 urls2 : list string) (url : string) (e : exn) (st0 : state) :
  fetched net url = Raise e ->
  snd (main_loop net win_start win_end (urls1 ++ url :: urls2) st0)
  = snd (main_loop net win_start win_end (urls1 ++ urls2) st0).
Proof.
  intros Hfail. rewrite !main_loop_merge_docs, !fetched_docs_app.
  cbn [fetched_docs]. by rewrite Hfail.
Qed.

Lemma failed_source_is_skipped_witness :
  snd (main_loop sample_net sample_win_start sample_win_end
         (["a"%string] ++ "down"%string :: ["b"%string]) initial_state)
  = snd (main_loop sample_net sample_win_start sample_win_end
           (["a"%string] ++ ["b"%string]) initial_state).
Proof.
  apply (failed_source_is_skipped sample_net sample_win_start sample_win_end
           ["a"]%string ["b"]%string "down"
           (RequestError "third attempt: HTTP 503")).
  reflexivity.
Defined.
